(** * The undo log, the transaction guard and the scheduler-version switch
      of [anki.collection.Collection] (pylib/anki/collection.py)

    The development follows the Python class method by method.  The
    collection object, its storage proxy and the undo record are an explicit
    state; every method is a computation in a state-and-exception monad, so
    that a Python [raise] keeps the mutations made before it. *)

From stdpp Require Import base option list strings gmap.
From Stdlib Require Import ZArith Lia.

Open Scope string_scope.
Open Scope list_scope.
Open Scope Z_scope.

(** ** Rows of the storage layer *)

(** A row of the [cards] table; [copy.copy(card)] in [markReview] snapshots
    exactly these columns. *)
Record Card := mkCard {
  card_id : Z;
  card_nid : Z;
  card_did : Z;
  card_mod : Z;
  card_usn : Z;
  card_type : Z;
  card_queue : Z;
  card_due : Z;
  card_ivl : Z
}.

(** The single row of the [col] table, read and written by the legacy
    properties [crt], [mod], [scm], [_usn] and [ls]. *)
Record ColRow := mkColRow {
  col_crt : Z;
  col_mod : Z;
  col_scm : Z;
  col_usn : Z;
  col_ls : Z
}.

Record RevlogRow := mkRevlog {
  revlog_id : Z;
  revlog_cid : Z
}.

(** What the storage holds.  [note_tags] keeps, per note id, the tags of the
    note; [today_counts] is whatever the scheduler's statistics live in and
    is only touched through [_updateStats]. *)
Record Tables := mkTables {
  col_row : ColRow;
  cards : gmap Z Card;
  note_tags : gmap Z (list string);
  revlog : list RevlogRow;
  config : gmap string Z;
  today_counts : gmap string Z
}.

(** ** The objects held by a collection *)

(** Modelled from the spec: the storage proxy (anki.dbproxy.DBProxy) is not
    part of the sources.  It carries the local mutation flag [mod]
    ([db_mod] here, as [mod] is reserved), the modification time recorded
    when the current transaction began, the tables as the open transaction
    sees them ([live]) and as the last commit left them ([saved]), and the
    number of open transactions. *)
Record DBProxy := mkDB {
  db_mod : bool;
  last_begin_at : Z;
  live : Tables;
  saved : Tables;
  open_trx : nat
}.

(** [self._undo]: [None], or the list [[1, name, cards, wasLeech]] of the
    review case, or the list [[2, name]] of the checkpoint case (comment
    above [clearUndo] in the source).  The leading integer is the
    constructor. *)
Inductive UndoRecord :=
| ReviewUndo (name : string) (data : list Card) (wasLeech : bool)
| CheckpointUndo (name : string).

Inductive SchedulerClass := V1Scheduler | V2Scheduler.

(** Modelled from the spec: the scheduler classes (anki.sched, anki.schedv2)
    are not part of the sources; an instance is its class and the
    in-session repetition counter [reps], which a fresh instance starts at
    zero. *)
Record Scheduler := mkSched {
  sched_class : SchedulerClass;
  reps : Z
}.

Record Collection := mkCol {
  db : DBProxy;
  server : bool;
  _lastSave : Z;
  _undo : option UndoRecord;
  sched : Scheduler
}.

(** Calls observed on the collaborators, in order: the commit-count probe of
    a storage test double, and the migration routines. *)
Inductive Event :=
| EvBegin
| EvCommit
| EvRollback
| EvMoveToV1
| EvMoveToV2.

(** The collection together with what surrounds it: the log of observed
    calls and the number of clock readings made so far. *)
Record World := mkWorld {
  col : Collection;
  probe : list Event;
  ticks : nat
}.

Inductive PyExc :=
| TypeError
| IndexError
| Exception (msg : string)
| AnkiError (msg : string).

(** The filtered-deck part of a deck configuration, as [_undoReview] reads
    it: [conf["dyn"]] and [conf["resched"]]. *)
Record DeckConf := mkDeckConf {
  dyn : bool;
  resched : bool
}.

(** ** External collaborators

    Everything the class consumes without defining: the translated label,
    the clock, the confirmation hook, the scheduler's helpers and migration
    routines, and the queue constants of anki.consts. *)
Class Externals := {
  (** [self.tr(TR.SCHEDULING_REVIEW)] *)
  TR_SCHEDULING_REVIEW : string;
  (** the k-th reading of the system clock, in milliseconds *)
  clock_ms : nat -> Z;
  (** [hooks.schema_will_change(proceed=...)] *)
  schema_will_change : bool -> bool;
  (** [self.sched._cardConf(c)] *)
  _cardConf : Tables -> Card -> DeckConf;
  (** [self.sched._updateStats(c, type, cnt)] *)
  _updateStats : Card -> string -> Z -> Tables -> Tables;
  (** [V2Scheduler(self).moveToV1()] and [.moveToV2()]: the routines hold
      the collection and may do to it whatever they like *)
  moveToV1 : Collection -> Collection;
  moveToV2 : Collection -> Collection;
  QUEUE_TYPE_LRN : Z;
  QUEUE_TYPE_DAY_LEARN_RELEARN : Z;
  QUEUE_TYPE_PREVIEW : Z
}.

(** ** State and exceptions *)

Inductive Res (A : Type) :=
| Ok (a : A) (w : World)
| Raise (e : PyExc) (w : World).
Arguments Ok {A} a w.
Arguments Raise {A} e w.

Definition M (A : Type) : Type := World -> Res A.

#[global] Instance M_ret : MRet M := fun A a w => Ok a w.
#[global] Instance M_bind : MBind M := fun A B f m w =>
  match m w with
  | Ok a w' => f a w'
  | Raise e w' => Raise e w'
  end.

Definition raise {A} (e : PyExc) : M A := fun w => Raise e w.
Definition gets {A} (f : World -> A) : M A := fun w => Ok (f w) w.
Definition modify (f : World -> World) : M unit := fun w => Ok tt (f w).
Definition when (b : bool) (m : M unit) : M unit := if b then m else mret tt.

(** Field updates. *)
Definition with_col (f : Collection -> Collection) (w : World) : World :=
  mkWorld (f (col w)) (probe w) (ticks w).
Definition with_db (f : DBProxy -> DBProxy) (c : Collection) : Collection :=
  mkCol (f (db c)) (server c) (_lastSave c) (_undo c) (sched c).
Definition with_undo (u : option UndoRecord) (c : Collection) : Collection :=
  mkCol (db c) (server c) (_lastSave c) u (sched c).
Definition with_sched (s : Scheduler) (c : Collection) : Collection :=
  mkCol (db c) (server c) (_lastSave c) (_undo c) s.
Definition with_lastSave (t : Z) (c : Collection) : Collection :=
  mkCol (db c) (server c) t (_undo c) (sched c).
Definition with_live (f : Tables -> Tables) (d : DBProxy) : DBProxy :=
  mkDB (db_mod d) (last_begin_at d) (f (live d)) (saved d) (open_trx d).
Definition with_db_mod (b : bool) (d : DBProxy) : DBProxy :=
  mkDB b (last_begin_at d) (live d) (saved d) (open_trx d).
Definition with_col_row (f : ColRow -> ColRow) (t : Tables) : Tables :=
  mkTables (f (col_row t)) (cards t) (note_tags t) (revlog t) (config t)
           (today_counts t).
Definition with_cards (f : gmap Z Card -> gmap Z Card) (t : Tables) : Tables :=
  mkTables (col_row t) (f (cards t)) (note_tags t) (revlog t) (config t)
           (today_counts t).
Definition with_note_tags (f : gmap Z (list string) -> gmap Z (list string))
    (t : Tables) : Tables :=
  mkTables (col_row t) (cards t) (f (note_tags t)) (revlog t) (config t)
           (today_counts t).
Definition with_revlog (f : list RevlogRow -> list RevlogRow) (t : Tables)
    : Tables :=
  mkTables (col_row t) (cards t) (note_tags t) (f (revlog t)) (config t)
           (today_counts t).
Definition with_config (f : gmap string Z -> gmap string Z) (t : Tables)
    : Tables :=
  mkTables (col_row t) (cards t) (note_tags t) (revlog t) (f (config t))
           (today_counts t).
Definition set_mod (v : Z) (r : ColRow) : ColRow :=
  mkColRow (col_crt r) v (col_scm r) (col_usn r) (col_ls r).
Definition set_scm (v : Z) (r : ColRow) : ColRow :=
  mkColRow (col_crt r) (col_mod r) v (col_usn r) (col_ls r).

Definition log_event (e : Event) : M unit :=
  modify (fun w => mkWorld (col w) (probe w ++ [e]) (ticks w)).

(** ** Python primitives *)

(** [t[n]] on a tuple or list: a negative index counts from the end, an
    index outside [-len, len) raises IndexError (here [None]). *)
Definition py_index {A} (l : list A) (n : Z) : option A :=
  if 0 <=? n then l !! Z.to_nat n
  else if - Z.of_nat (length l) <=? n then l !! Z.to_nat (Z.of_nat (length l) + n)
  else None.

(** [l.pop()]: the list without its last element, and that element. *)
Fixpoint py_pop {A} (l : list A) : option (list A * A) :=
  match l with
  | [] => None
  | [x] => Some ([], x)
  | x :: l' =>
      match py_pop l' with
      | Some (r, y) => Some (x :: r, y)
      | None => None
      end
  end.

(** Truthiness of a string: [if name:] *)
Definition truthy (s : string) : bool :=
  match s with EmptyString => false | _ => true end.

Section Collection.
Context `{E : Externals}.

(** [time.time()] and [intTime(scale)] = [int(time.time() * scale)], from a
    clock that is read in milliseconds. *)
Definition time_time : M Z := fun w =>
  Ok (clock_ms (ticks w)) (mkWorld (col w) (probe w) (S (ticks w))).
Definition intTime (scale : Z) : M Z :=
  t ← time_time; mret (t * scale / 1000).

(** ** The storage proxy *)

Definition in_db (f : DBProxy -> DBProxy) : M unit :=
  modify (with_col (with_db f)).
Definition the_live : M Tables := gets (fun w => live (db (col w))).

(** Modelled from the spec: DBProxy.begin is not part of the sources.  It
    records the storage's modified timestamp as the time the transaction
    began and opens a transaction. *)
Definition db_begin : M unit :=
  in_db (fun d => mkDB (db_mod d) (col_mod (col_row (live d))) (live d)
                       (saved d) (S (open_trx d))) ;;
  log_event EvBegin.

(** Modelled from the spec: DBProxy.commit is not part of the sources.  It
    makes the live tables the committed ones and ends the transaction. *)
Definition db_commit : M unit :=
  in_db (fun d => mkDB (db_mod d) (last_begin_at d) (live d) (live d) 0%nat) ;;
  log_event EvCommit.

(** Modelled from the spec: DBProxy.rollback is not part of the sources.  It
    discards the live tables for the committed ones and ends the
    transaction. *)
Definition db_rollback : M unit :=
  in_db (fun d => mkDB (db_mod d) (last_begin_at d) (saved d) (saved d) 0%nat) ;;
  log_event EvRollback.

(** Modelled from the spec: DBProxy.execute is not part of the sources.  An
    insert, update or delete statement changes the live tables and raises
    the proxy's local mutation flag. *)
Definition db_execute (stmt : Tables -> Tables) : M unit :=
  in_db (fun d => with_db_mod true (with_live stmt d)).

(** [db.scalar] of a select statement. *)
Definition db_scalar {A} (query : Tables -> A) : M A :=
  t ← the_live; mret (query t).

(** Modelled from the spec: the backend (anki._backend) is not part of the
    sources.  A mutating request (a card or note flush, a config write)
    changes the live tables and stamps the collection's modified time, as
    the comments on [setMod] and [modified_after_begin] say; it does not go
    through the proxy, so the local flag stays as it is. *)
Definition backend_write (req : Tables -> Tables) : M unit :=
  now ← intTime 1000;
  in_db (with_live (fun t => with_col_row (set_mod now) (req t))).

(** ** Legacy properties *)

Definition _get_scm : M Z := db_scalar (fun t => col_scm (col_row t)).
Definition _set_scm (val : Z) : M unit :=
  db_execute (with_col_row (set_scm val)).
Definition _get_usn : M Z := db_scalar (fun t => col_usn (col_row t)).
Definition _get_mod : M Z := db_scalar (fun t => col_mod (col_row t)).
Definition _set_mod (val : Z) : M unit :=
  db_execute (with_col_row (set_mod val)).
Definition _get_ls : M Z := db_scalar (fun t => col_ls (col_row t)).

(** [setMod]: "this is now a no-op". *)
Definition setMod : M unit := mret tt.

Definition modified_after_begin : M bool :=
  begun ← gets (fun w => last_begin_at (db (col w)));
  m ← _get_mod;
  mret (negb (begun =? m)).

(** ** Undo *)

Definition clearUndo : M unit := modify (with_col (with_undo None)).

Definition undoName : M (option string) :=
  u ← gets (fun w => _undo (col w));
  match u with
  | None => mret None
  | Some (ReviewUndo name _ _) => mret (Some name)
  | Some (CheckpointUndo name) => mret (Some name)
  end.

Definition _markOp (name : option string) : M unit :=
  match name with
  | Some n =>
      if truthy n then modify (with_col (with_undo (Some (CheckpointUndo n))))
      else
        u ← gets (fun w => _undo (col w));
        match u with
        | Some (CheckpointUndo _) => clearUndo
        | _ => mret tt
        end
  | None =>
      u ← gets (fun w => _undo (col w));
      match u with
      | Some (CheckpointUndo _) => clearUndo
      | _ => mret tt
      end
  end.

(** ** Cards and notes *)

(** Modelled from the spec: the note class (anki.notes.Note) is not part of
    the sources.  A note object is its id and its tags; [hasTag] and
    [delTag] act on the object, [flush] writes its tags back through the
    backend. *)
Record Note := mkNote {
  note_id : Z;
  tags : list string
}.

Definition hasTag (n : Note) (tag : string) : bool :=
  bool_decide (tag ∈ tags n).
Definition delTag (n : Note) (tag : string) : Note :=
  mkNote (note_id n) (filter (fun t => t ≠ tag) (tags n)).
Definition Note_flush (n : Note) : M unit :=
  backend_write (with_note_tags (insert (note_id n) (tags n))).

(** Modelled from the spec: the card class (anki.cards.Card) is not part of
    the sources.  [c.note()] is the note the card belongs to, with the tags
    the storage holds for it now; [c.flush()] overwrites the card's whole
    row. *)
Definition Card_note (c : Card) : M Note :=
  db_scalar (fun t => mkNote (card_nid c)
                             (default [] (note_tags t !! card_nid c))).
Definition Card_flush (c : Card) : M unit :=
  backend_write (with_cards (insert (card_id c) c)).

Definition usn : M Z :=
  srv ← gets (fun w => server (col w));
  match srv with true => _get_usn | false => mret (-1) end.

Definition markReview (card : Card) : M unit :=
  u ← gets (fun w => _undo (col w));
  old ← match u return M (list Card) with
        | Some (ReviewUndo _ data _) => clearUndo ;; mret data
        | Some (CheckpointUndo _) => clearUndo ;; mret []
        | None => mret []
        end;
  n ← Card_note card;
  let wasLeech := hasTag n "leech" || false in
  modify (with_col (with_undo
    (Some (ReviewUndo TR_SCHEDULING_REVIEW (old ++ [card]) wasLeech)))).

(** [select id from revlog where cid = ? order by id desc limit 1] *)
Definition last_revlog (cid : Z) (t : Tables) : option Z :=
  foldr (fun r acc =>
           if revlog_cid r =? cid then
             match acc with
             | Some m => Some (Z.max m (revlog_id r))
             | None => Some (revlog_id r)
             end
           else acc)
        None (revlog t).

(** [delete from revlog where id = ?]; comparing with NULL selects no row. *)
Definition delete_revlog (last : option Z) : Tables -> Tables :=
  match last with
  | Some i => with_revlog (filter (fun r => revlog_id r ≠ i))
  | None => fun t => t
  end.

(** [update cards set queue=type,mod=?,usn=? where queue=-2 and nid=?] *)
Definition restore_siblings (now u nid : Z) : Tables -> Tables :=
  with_cards (fmap (fun c =>
    if (card_queue c =? -2) && (card_nid c =? nid) then
      mkCard (card_id c) (card_nid c) (card_did c) now u (card_type c)
             (card_type c) (card_due c) (card_ivl c)
    else c)).

(** The key of the daily count a card's queue belongs to:
    [("new", "lrn", "rev")[n]]. *)
Definition stats_type (queue : Z) : option string :=
  let n := if (queue =? QUEUE_TYPE_DAY_LEARN_RELEARN) || (queue =? QUEUE_TYPE_PREVIEW)
           then QUEUE_TYPE_LRN else queue in
  py_index ["new"; "lrn"; "rev"] n.

Definition _undoReview : M (option Z) :=
  u ← gets (fun w => _undo (col w));
  match u with
  | None => raise TypeError
  | Some (CheckpointUndo _) => raise IndexError
  | Some (ReviewUndo name data wasLeech) =>
      match py_pop data with
      | None => raise IndexError
      | Some (data', c) =>
          (* the pop shortens the list held by the record *)
          modify (with_col (with_undo (Some (ReviewUndo name data' wasLeech)))) ;;
          when (bool_decide (data' = [])) clearUndo ;;
          (* remove leech tag if it didn't have it before *)
          remove ← match wasLeech with
                   | true => mret false
                   | false => n ← Card_note c; mret (hasTag n "leech")
                   end;
          when remove (n ← Card_note c; Note_flush (delTag n "leech")) ;;
          (* write old data *)
          Card_flush c ;;
          (* and delete revlog entry if not previewing *)
          conf ← db_scalar (fun t => _cardConf t c);
          let previewing := dyn conf && negb (resched conf) in
          when (negb previewing)
               (last ← db_scalar (last_revlog (card_id c));
                db_execute (delete_revlog last)) ;;
          (* restore any siblings *)
          now ← intTime 1;
          un ← usn;
          db_execute (restore_siblings now un (card_nid c)) ;;
          (* and finally, update daily counts *)
          match stats_type (card_queue c) with
          | None => raise IndexError
          | Some type =>
              in_db (with_live (_updateStats c type (-1))) ;;
              modify (with_col (fun cl =>
                with_sched (mkSched (sched_class (sched cl)) (reps (sched cl) - 1)) cl)) ;;
              mret (Some (card_id c))
          end
      end
  end.

(** ** Transactions *)

Definition rollback : M unit := db_rollback ;; db_begin.

Definition _undoOp : M unit := rollback ;; clearUndo.

Definition undo : M (option Z) :=
  u ← gets (fun w => _undo (col w));
  match u with
  | None => raise TypeError
  | Some (ReviewUndo _ _ _) => _undoReview
  | Some (CheckpointUndo _) => _undoOp ;; mret None
  end.

Definition save (name : option string) (mod_ : option Z) (trx : bool) : M unit :=
  flag ← gets (fun w => db_mod (db (col w)));
  dirty ← match flag with true => mret true | false => modified_after_begin end;
  match dirty with
  | true =>
      v ← match mod_ return M Z with
          | None => intTime 1000
          | Some v => mret v
          end;
      _set_mod v ;;
      db_commit ;;
      in_db (with_db_mod false) ;;
      when trx db_begin
  | false =>
      (* if no changes were pending but calling code expects to be
         outside of a transaction, we need to roll back *)
      when (negb trx) db_rollback
  end ;;
  _markOp name ;;
  t ← time_time;
  modify (with_col (with_lastSave t)).

Definition schemaChanged : M bool :=
  s ← _get_scm;
  l ← _get_ls;
  mret (l <? s).

Definition modSchema (check : bool) : M unit :=
  changed ← schemaChanged;
  match changed with
  | false =>
      if check && negb (schema_will_change true)
      then raise (AnkiError "abortSchemaMod")
      else mret tt
  | true => mret tt
  end ;;
  now ← intTime 1000;
  _set_scm now ;;
  setMod ;;
  save None None true.

(** ** Scheduler *)

Definition supportedSchedulerVersions : list Z := [1; 2].

(** Modelled from the spec: the config manager (anki.config.ConfigManager)
    is not part of the sources.  [conf.get(key, default)] reads the
    persisted value, [conf[key] = val] persists it through the backend. *)
Definition conf_get (key : string) (dflt : Z) : M Z :=
  db_scalar (fun t => default dflt (config t !! key)).
Definition conf_set (key : string) (val : Z) : M unit :=
  backend_write (with_config (insert key val)).

Definition schedVer : M Z :=
  ver ← conf_get "schedVer" 1;
  if bool_decide (ver ∈ supportedSchedulerVersions) then mret ver
  else raise (Exception "Unsupported scheduler version").

Definition _loadScheduler : M unit :=
  ver ← schedVer;
  if ver =? 1 then modify (with_col (with_sched (mkSched V1Scheduler 0)))
  else if ver =? 2 then modify (with_col (with_sched (mkSched V2Scheduler 0)))
  else mret tt.

Definition v2Sched_moveToV1 : M unit :=
  log_event EvMoveToV1 ;; modify (with_col moveToV1).
Definition v2Sched_moveToV2 : M unit :=
  log_event EvMoveToV2 ;; modify (with_col moveToV2).

Definition changeSchedulerVer (ver : Z) : M unit :=
  cur ← schedVer;
  if ver =? cur then mret tt
  else if negb (bool_decide (ver ∈ supportedSchedulerVersions))
  then raise (Exception "Unsupported scheduler version")
  else
    modSchema true ;;
    clearUndo ;;
    (if ver =? 1 then v2Sched_moveToV1 else v2Sched_moveToV2) ;;
    conf_set "schedVer" ver ;;
    setMod ;;
    _loadScheduler.

End Collection.

(** ** Observations on a world *)

(** The cards a record holds for review undo. *)
Definition undo_entries (u : option UndoRecord) : list Card :=
  match u with
  | Some (ReviewUndo _ data _) => data
  | _ => []
  end.

Definition is_review (u : option UndoRecord) : bool :=
  match u with
  | Some (ReviewUndo _ _ _) => true
  | _ => false
  end.

Definition is_checkpoint (u : option UndoRecord) : bool :=
  match u with
  | Some (CheckpointUndo _) => true
  | _ => false
  end.

(** The spec's [mark_checkpoint], in its words: a label that is present
    replaces the record by a checkpoint carrying it; without a label the
    record is cleared only if it is a checkpoint.  [None] and the empty
    string are the absent labels. *)
Definition mark_checkpoint (label : option string) (u : option UndoRecord)
    : option UndoRecord :=
  match label with
  | Some (String a s) => Some (CheckpointUndo (String a s))
  | _ => if is_checkpoint u then None else u
  end.

(** The record that holds the reviewed cards [cs]: none when there are
    none. *)
Definition record_of (nm : string) (wl : bool) (cs : list Card)
    : option UndoRecord :=
  if bool_decide (cs = []) then None else Some (ReviewUndo nm cs wl).

(** Whether the note of [c] carries the leech tag in the live tables. *)
Definition note_is_leech (w : World) (c : Card) : bool :=
  bool_decide ("leech" ∈ default [] (note_tags (live (db (col w))) !! card_nid c)).

(** The storage is dirty: the proxy's mutation flag is up, or the modified
    timestamp is no longer the one recorded when the transaction began. *)
Definition dirty (w : World) : bool :=
  db_mod (db (col w)) ||
  negb (last_begin_at (db (col w)) =? col_mod (col_row (live (db (col w))))).

(** The persisted scheduler version, if any. *)
Definition persisted_version (w : World) : option Z :=
  config (live (db (col w))) !! "schedVer".

(** [returns m w Q]: from [w], [m] raises nothing and ends with a value and
    a world in [Q]. *)
Definition returns {A} (m : M A) (w : World) (Q : A -> World -> Prop) : Prop :=
  match m w with
  | Ok a w' => Q a w'
  | Raise _ _ => False
  end.

(** [yields m P]: [m] always returns, with a value in [P], and touches
    neither the undo record nor the log of observed calls. *)
Definition yields {A} (m : M A) (P : A -> Prop) : Prop :=
  forall w, returns m w (fun a w' =>
    P a /\ _undo (col w') = _undo (col w) /\ probe w' = probe w).

Definition anything {A} : A -> Prop := fun _ => True.

Section Observations.
Context `{E : Externals}.

(** The value [save] stamps the modified timestamp with: the caller's, or
    the next clock reading. *)
Definition stamp (mod_ : option Z) (w : World) : Z :=
  match mod_ with
  | Some v => v
  | None => clock_ms (ticks w)
  end.

(** The migration routine a change to version [ver] runs, and the event it
    is observed as. *)
Definition migration (ver : Z) : Collection -> Collection :=
  if ver =? 1 then moveToV1 else moveToV2.
Definition migration_event (ver : Z) : Event :=
  if ver =? 1 then EvMoveToV1 else EvMoveToV2.

(** The scheduler instance [_loadScheduler] creates for a supported
    version. *)
Definition fresh_scheduler (ver : Z) : Scheduler :=
  if ver =? 1 then mkSched V1Scheduler 0 else mkSched V2Scheduler 0.

End Observations.

(** ** Review sessions

    A session marks cards for review one after the other and later takes
    the reviews back.  Between two calls anything may happen to the
    collection (the scheduler answers the card, tables change) as long as it
    goes through neither [save] nor the undo methods: [activity k] is what
    happens after the k-th call. *)
Section Sessions.
Context `{E : Externals}.
Variable activity : nat -> World -> World.

Fixpoint review_all (k : nat) (cs : list Card) : M unit :=
  match cs with
  | [] => mret tt
  | c :: cs' => markReview c ;; modify (activity k) ;; review_all (S k) cs'
  end.

Fixpoint undo_times (k : nat) (n : nat) : M (list (option Z)) :=
  match n with
  | O => mret []
  | S n' =>
      r ← undo;
      modify (activity k) ;;
      rs ← undo_times (S k) n';
      mret (r :: rs)
  end.

End Sessions.

(** ** Test doubles *)

Module Double.

(** Daily counts kept per key, as a scheduler double would. *)
Definition count_stats (c : Card) (type : string) (cnt : Z) (t : Tables)
    : Tables :=
  mkTables (col_row t) (cards t) (note_tags t) (revlog t) (config t)
           (<[type := default 0 (today_counts t !! type) + cnt]> (today_counts t)).

(** A collaborator set with a granting hook and migrations that leave the
    collection object alone. *)
Definition granting : Externals := {|
  TR_SCHEDULING_REVIEW := "Review";
  clock_ms := fun k => 1600000000000 + 1000 * Z.of_nat k;
  schema_will_change := fun proceed => proceed;
  _cardConf := fun _ _ => mkDeckConf false true;
  _updateStats := count_stats;
  moveToV1 := fun c => c;
  moveToV2 := fun c => c;
  QUEUE_TYPE_LRN := 1;
  QUEUE_TYPE_DAY_LEARN_RELEARN := 3;
  QUEUE_TYPE_PREVIEW := 4
|}.

(** The same with a hook that vetoes every schema change. *)
Definition refusing : Externals := {|
  TR_SCHEDULING_REVIEW := "Review";
  clock_ms := fun k => 1600000000000 + 1000 * Z.of_nat k;
  schema_will_change := fun _ => false;
  _cardConf := fun _ _ => mkDeckConf false true;
  _updateStats := count_stats;
  moveToV1 := fun c => c;
  moveToV2 := fun c => c;
  QUEUE_TYPE_LRN := 1;
  QUEUE_TYPE_DAY_LEARN_RELEARN := 3;
  QUEUE_TYPE_PREVIEW := 4
|}.

(** The same as [granting] with migration routines that leave an undo
    checkpoint behind. *)
Definition recording : Externals := {|
  TR_SCHEDULING_REVIEW := "Review";
  clock_ms := fun k => 1600000000000 + 1000 * Z.of_nat k;
  schema_will_change := fun proceed => proceed;
  _cardConf := fun _ _ => mkDeckConf false true;
  _updateStats := count_stats;
  moveToV1 := with_undo (Some (CheckpointUndo "Downgrade"));
  moveToV2 := with_undo (Some (CheckpointUndo "Upgrade"));
  QUEUE_TYPE_LRN := 1;
  QUEUE_TYPE_DAY_LEARN_RELEARN := 3;
  QUEUE_TYPE_PREVIEW := 4
|}.

Definition card1 : Card := mkCard 101 1 1 0 0 2 2 30 10.
Definition card2 : Card := mkCard 102 2 1 0 0 2 2 31 12.
Definition card3 : Card := mkCard 103 3 1 0 0 0 0 5 0.

(** A row whose queue is none of the scheduler's. *)
Definition card_odd : Card := mkCard 104 3 1 0 0 0 7 5 0.

(** Note 2 carries the leech tag, notes 1 and 3 do not; the schema was last
    modified before the last sync; scheduler version 1 is in use. *)
Definition tables0 : Tables := {|
  col_row := mkColRow 1500000000 1599999000000 1590000000000 7 1595000000000;
  cards := {[ 101 := card1; 102 := card2; 103 := card3 ]};
  note_tags := {[ 1 := ["hard"]; 2 := ["leech"]; 3 := [] ]};
  revlog := [mkRevlog 9001 101; mkRevlog 9002 102];
  config := ∅;
  today_counts := ∅
|}.

Definition db0 : DBProxy := mkDB false 1599999000000 tables0 tables0 1.

Definition col0 : Collection := mkCol db0 false 0 None (mkSched V1Scheduler 0).

Definition world0 : World := mkWorld col0 [] 0.

(** A collection like [col0] holding a pending checkpoint. *)
Definition world_checkpoint : World :=
  with_col (with_undo (Some (CheckpointUndo "Add"))) world0.

(** A collection like [col0] holding one reviewed card whose note was not a
    leech. *)
Definition world_review : World :=
  with_col (with_undo (Some (ReviewUndo "Review" [card1] false))) world0.

(** A collection like [col0] with unsaved changes. *)
Definition world_dirty : World :=
  with_col (with_db (with_db_mod true)) world0.

(** The scheduler marks a note as a leech while answering its card. *)
Definition add_leech (nid : Z) : World -> World :=
  with_col (with_db (with_live (with_note_tags
    (fun m => <[nid := "leech" :: default [] (m !! nid)]> m)))).

(** The final value and the final world of a run. *)
Definition result {A} (r : Res A) : option A :=
  match r with Ok a _ => Some a | Raise _ _ => None end.
Definition final {A} (r : Res A) : World :=
  match r with Ok _ w => w | Raise _ w => w end.

End Double.

(** ** Further methods of the collection *)

(** [str.capitalize()] on ASCII text: the first character in upper case,
    the others in lower case. *)
Definition ascii_upper (a : Ascii.ascii) : Ascii.ascii :=
  let n := Ascii.N_of_ascii a in
  if ((97 <=? n) && (n <=? 122))%N then Ascii.ascii_of_N (n - 32) else a.
Definition ascii_lower (a : Ascii.ascii) : Ascii.ascii :=
  let n := Ascii.N_of_ascii a in
  if ((65 <=? n) && (n <=? 90))%N then Ascii.ascii_of_N (n + 32) else a.
Fixpoint lower (s : string) : string :=
  match s with
  | EmptyString => EmptyString
  | String a r => String (ascii_lower a) (lower r)
  end.
Definition capitalize (s : string) : string :=
  match s with
  | EmptyString => EmptyString
  | String a r => String (ascii_upper a) (lower r)
  end.

Section Housekeeping.
Context `{E : Externals}.

(** [autosave]: "Save if 5 minutes has passed since last save. True if
    saved."  The clock and [_lastSave] are in milliseconds here, so the 300
    seconds of the source are 300000. *)
Definition autosave : M (option bool) :=
  t ← time_time;
  last ← gets (fun w => _lastSave (col w));
  if 300000 <? t - last then save None None true ;; mret (Some true)
  else mret None.

(** Modelled from the spec: DBProxy.execute is not part of the sources.  A
    vacuum or analyze statement changes no row and is no insert, update or
    delete, so the proxy's mutation flag stays as it is. *)
Definition db_execute_maintenance : M unit := mret tt.

Definition optimize : M unit :=
  save None None false ;;
  db_execute_maintenance ;;
  db_execute_maintenance ;;
  db_begin.

Definition nextID (type : string) (inc : bool) : M Z :=
  let type := "next" +:+ capitalize type in
  id ← conf_get type 1;
  when inc (conf_set type (id + 1)) ;;
  mret id.

(** A review session in which [autosave] is called after every call, as a
    client does after each answer. *)
Fixpoint review_all_autosaving (cs : list Card) : M unit :=
  match cs with
  | [] => mret tt
  | c :: cs' => markReview c ;; autosave ;; review_all_autosaving cs'
  end.

Fixpoint undo_times_autosaving (n : nat) : M (list (option Z)) :=
  match n with
  | O => mret []
  | S n' =>
      r ← undo;
      autosave ;;
      rs ← undo_times_autosaving n';
      mret (r :: rs)
  end.

End Housekeeping.

(** ** Duplicate search *)

(** What [findDupes] can raise: subscripting a model that does not exist,
    a model without the field, a note with too few fields. *)
Inductive DupeExc :=
| DupeTypeError
| DupeKeyError
| DupeIndexError.

(** The three dictionaries and lists of [findDupes].  An entry of [dupes] is
    the pair of a value and the very list object [vals] holds for it, which
    later appends still extend: the entry is kept as the value, and the
    list is read from [vals] when the result is handed out. *)
Record DupeState := mkDupe {
  vals : gmap string (list Z);
  dupes : list string;
  fields : gmap Z nat
}.

Section FindDupes.
(** Collaborators: [splitFields] and [stripHTMLMedia] of anki.utils, and
    [self.models.get(mid)] reduced to the names of the model's fields. *)
Variable splitFields : string -> list string.
Variable stripHTMLMedia : string -> string.
Variable models_get : Z -> option (list string).

(** The index of the first element satisfying [p]:
    [for c, f in enumerate(l): if p(f): ...; break] *)
Fixpoint first_index {A} (p : A -> bool) (l : list A) (c : nat) : option nat :=
  match l with
  | [] => None
  | f :: l' => if p f then Some c else first_index p l' (S c)
  end.

Definition ordForMid (fieldName : string) (mid : Z) (st : DupeState)
    : DupeExc + (nat * DupeState) :=
  match fields st !! mid with
  | Some c => inr (c, st)
  | None =>
      match models_get mid with
      | None => inl DupeTypeError
      | Some flds =>
          match first_index
                  (fun name => bool_decide (lower name = lower fieldName))
                  flds 0%nat with
          | Some c => inr (c, mkDupe (vals st) (dupes st) (<[mid := c]> (fields st)))
          | None => inl DupeKeyError
          end
      end
  end.

(** One turn of the loop over the rows [(nid, mid, flds)]. *)
Definition findDupes_row (fieldName : string) (row : Z * Z * string)
    (st : DupeState) : DupeExc + DupeState :=
  let '(nid, mid, flds) := row in
  let flds := splitFields flds in
  match ordForMid fieldName mid st with
  | inl e => inl e
  | inr (ord, st) =>
      match flds !! ord with
      | None => inl DupeIndexError
      | Some val =>
          let val := stripHTMLMedia val in
          (* empty does not count as duplicate *)
          if negb (truthy val) then inr st
          else
            let l := default [] (vals st !! val) ++ [nid] in
            let vals' := <[val := l]> (vals st) in
            inr (mkDupe vals'
                        (if (length l =? 2)%nat then dupes st ++ [val] else dupes st)
                        (fields st))
      end
  end.

Fixpoint findDupes_loop (fieldName : string) (rows : list (Z * Z * string))
    (st : DupeState) : DupeExc + DupeState :=
  match rows with
  | [] => inr st
  | row :: rows' =>
      match findDupes_row fieldName row st with
      | inl e => inl e
      | inr st' => findDupes_loop fieldName rows' st'
      end
  end.

(** [findDupes] on the rows [self.db.all] hands over for the notes found. *)
Definition findDupes (fieldName : string) (rows : list (Z * Z * string))
    : DupeExc + list (string * list Z) :=
  match findDupes_loop fieldName rows (mkDupe ∅ [] ∅) with
  | inl e => inl e
  | inr st => inr (map (fun val => (val, default [] (vals st !! val))) (dupes st))
  end.

(** The value a row is filed under, when it has one. *)
Definition row_value (fieldName : string) (row : Z * Z * string)
    : option string :=
  let '(_, mid, flds) := row in
  flds' ← models_get mid;
  ord ← first_index (fun name => bool_decide (lower name = lower fieldName))
                    flds' 0%nat;
  val ← splitFields flds !! ord;
  Some (stripHTMLMedia val).

(** The ids of the rows filed under [val], in the order of the rows. *)
Definition nids_of (fieldName : string) (val : string)
    (rows : list (Z * Z * string)) : list Z :=
  map (fun row => row.1.1)
      (filter (fun row => row_value fieldName row = Some val) rows).

(** What the loop of [findDupes] keeps true after the rows [done]: the
    cache of field positions is right, [vals] files every row under its
    value, and [dupes] lists each value filed at least twice, once. *)
Definition dupes_invariant (fieldName : string) (done : list (Z * Z * string))
    (st : DupeState) : Prop :=
  (forall mid c, fields st !! mid = Some c ->
     exists flds, models_get mid = Some flds /\
       first_index (fun name => bool_decide (lower name = lower fieldName))
                   flds 0%nat = Some c) /\
  (forall val, vals st !! val =
     if truthy val && negb (bool_decide (nids_of fieldName val done = []))
     then Some (nids_of fieldName val done) else None) /\
  NoDup (dupes st) /\
  (forall val, val ∈ dupes st <->
     truthy val = true /\ (2 <= length (nids_of fieldName val done))%nat).

End FindDupes.

(** ** Observations on the review log *)

(** [r] carries the largest id logged for the card [cid] in [l]: it is the
    row [select ... order by id desc limit 1] picks, or shares its id. *)
Definition is_latest_log (cid : Z) (l : list RevlogRow) (r : RevlogRow) : Prop :=
  (exists r0, r0 ∈ l /\ revlog_cid r0 = cid /\ revlog_id r0 = revlog_id r) /\
  (forall r1, r1 ∈ l -> revlog_cid r1 = cid -> revlog_id r1 <= revlog_id r).

(** ** More test data *)

Module Samples.
Import Double.

(** A collection whose persisted scheduler version is none of the
    supported ones. *)
Definition world_v3 : World :=
  with_col (with_db (with_live (with_config (insert "schedVer" 3)))) world0.

(** A collection saved at the very time the clock shows next. *)
Definition world_just_saved : World :=
  with_col (with_lastSave 1600000000000) world0.

(** The note has a hidden sibling of card 1 and a card of another note in
    queue -2. *)
Definition sibling : Card := mkCard 105 1 1 0 0 2 (-2) 33 9.
Definition stranger : Card := mkCard 106 2 1 0 0 1 (-2) 34 9.
Definition world_siblings : World :=
  with_col (with_db (with_live (with_cards
    (fun m => <[105 := sibling]> (<[106 := stranger]> m))))) world_review.

(** A double of [splitFields] that splits at semicolons. *)
Fixpoint split_semicolon (acc s : string) : list string :=
  match s with
  | EmptyString => [String.rev acc]
  | String a r =>
      if Ascii.eqb a (Ascii.ascii_of_nat 59) then String.rev acc :: split_semicolon "" r
      else split_semicolon (String a acc) r
  end.
Definition sample_splitFields (s : string) : list string :=
  split_semicolon "" s.

Definition sample_models (mid : Z) : option (list string) :=
  if mid =? 1 then Some ["Front"; "Back"]
  else if mid =? 2 then Some ["Word"; "front"; "Extra"]
  else None.

(** Rows [(nid, mid, flds)]: three notes with the front "cat", one without
    a front, one with the front "dog". *)
Definition sample_rows : list (Z * Z * string) :=
  [(11, 1, "cat;x"); (12, 2, "w;cat;z"); (13, 1, ";y"); (14, 1, "dog;q");
   (15, 1, "cat;r")].

End Samples.

(** * Proofs *)

Create HintDb anki.
#[local] Hint Unfold mbind M_bind mret M_ret raise gets modify when
  log_event time_time intTime in_db the_live db_begin db_commit db_rollback
  db_execute db_scalar backend_write _get_scm _set_scm _get_usn _get_mod
  _set_mod _get_ls setMod modified_after_begin clearUndo Note_flush Card_note
  Card_flush usn conf_get conf_set rollback _undoOp schemaChanged
  v2Sched_moveToV1 v2Sched_moveToV2 : anki.

Ltac run := repeat autounfold with anki; cbn.

(** ** Python primitives *)

Lemma py_pop_snoc {A} (l : list A) (x : A) : py_pop (l ++ [x]) = Some (l, x).
Proof.
  induction l as [|a l IH]; [reflexivity|].
  simpl. rewrite IH. destruct (l ++ [x]) eqn:Hl; [|reflexivity].
  destruct l; discriminate.
Qed.

Lemma py_pop_nil_inv {A} (l : list A) : py_pop l = None -> l = [].
Proof.
  destruct l as [|a l]; [reflexivity|].
  destruct (exists_last (l := a :: l)) as (l' & x & ->); [discriminate|].
  rewrite py_pop_snoc. discriminate.
Qed.

(** ** Computations that return *)

Lemma returns_elim {A} (m : M A) w Q :
  returns m w Q -> exists a w', m w = Ok a w' /\ Q a w'.
Proof. unfold returns. destruct (m w); [eauto | tauto]. Qed.

Lemma returns_bind {A B} (m : M A) (f : A -> M B) w Q :
  returns m w (fun a w' => returns (f a) w' Q) -> returns (m ≫= f) w Q.
Proof. unfold returns, mbind, M_bind. destruct (m w); auto. Qed.

Lemma returns_weaken {A} (m : M A) w (P Q : A -> World -> Prop) :
  returns m w P -> (forall a w', P a w' -> Q a w') -> returns m w Q.
Proof. unfold returns. destruct (m w); auto. Qed.

Lemma yields_ret {A} (a : A) (P : A -> Prop) : P a -> yields (mret a) P.
Proof. intros H w. cbv. auto. Qed.

Lemma yields_bind {A B} (m : M A) (f : A -> M B) P Q :
  yields m P -> (forall a, P a -> yields (f a) Q) -> yields (m ≫= f) Q.
Proof.
  intros Hm Hf w. apply returns_bind.
  eapply returns_weaken; [apply Hm|].
  intros a w1 (Ha & Hu & Hp). cbn beta.
  eapply returns_weaken; [apply (Hf a Ha)|].
  intros b w2 (Hb & Hu' & Hp'). cbn beta. rewrite Hu', Hp'. auto.
Qed.

Lemma yields_when (b : bool) (m : M unit) :
  yields m anything -> yields (when b m) anything.
Proof. destruct b; [auto|]. intros _. apply yields_ret. exact I. Qed.

Lemma yields_gets {A} (f : World -> A) : yields (gets f) anything.
Proof. intros w. cbv. auto. Qed.

Section Facts.
Context `{E : Externals}.

Lemma yields_in_db (f : DBProxy -> DBProxy) : yields (in_db f) anything.
Proof. intros w. cbv. auto. Qed.

Lemma yields_db_scalar {A} (q : Tables -> A) : yields (db_scalar q) anything.
Proof. intros w. cbv. auto. Qed.

Lemma yields_db_execute (stmt : Tables -> Tables) :
  yields (db_execute stmt) anything.
Proof. apply yields_in_db. Qed.

Lemma yields_intTime (scale : Z) : yields (intTime scale) anything.
Proof. intros w. cbv. auto. Qed.

Lemma yields_backend_write (req : Tables -> Tables) :
  yields (backend_write req) anything.
Proof.
  eapply yields_bind; [apply yields_intTime|]. intros now _. apply yields_in_db.
Qed.

Lemma yields_usn : yields usn anything.
Proof.
  eapply yields_bind; [apply yields_gets|]. intros [|] _.
  - apply yields_db_scalar.
  - apply yields_ret. exact I.
Qed.

Lemma yields_set_reps (f : Collection -> Scheduler) :
  yields (modify (with_col (fun cl => with_sched (f cl) cl))) anything.
Proof. intros w. cbv. auto. Qed.

#[local] Hint Resolve yields_gets yields_in_db yields_db_scalar
  yields_db_execute yields_intTime yields_backend_write yields_usn
  yields_when yields_set_reps : anki.

Ltac step := eapply yields_bind; [solve [eauto with anki] | intros ? _].

(** ** The undo methods *)

Lemma markReview_run (c : Card) (w : World) :
  markReview c w =
  Ok tt (with_col (with_undo (Some (ReviewUndo TR_SCHEDULING_REVIEW
                                      (undo_entries (_undo (col w)) ++ [c])
                                      (note_is_leech w c)))) w).
Proof.
  unfold markReview, note_is_leech, hasTag. run.
  destruct (_undo (col w)) as [[nm d wl | nm]|] eqn:Hu; cbn;
    rewrite orb_false_r; reflexivity.
Qed.

(** One review undone: when the record holds [d ++ [c]] and the queue of
    [c] names one of the daily counts, [undo] returns the id of [c] and
    leaves [d] in the record, or no record when [d] is empty. *)
Lemma undo_review_run (nm : string) (d : list Card) (c : Card) (wl : bool)
    (ty : string) (w : World) :
  _undo (col w) = Some (ReviewUndo nm (d ++ [c]) wl) ->
  stats_type (card_queue c) = Some ty ->
  exists w',
    undo w = Ok (Some (card_id c)) w' /\
    _undo (col w') = record_of nm wl d /\
    probe w' = probe w.
Proof.
  intros Hu Hty.
  assert (Hrest : yields
    (remove ← match wl with
              | true => mret false
              | false => n ← Card_note c; mret (hasTag n "leech")
              end;
     when remove (n ← Card_note c; Note_flush (delTag n "leech")) ;;
     Card_flush c ;;
     conf ← db_scalar (fun t => _cardConf t c);
     when (negb (dyn conf && negb (resched conf)))
          (last ← db_scalar (last_revlog (card_id c));
           db_execute (delete_revlog last)) ;;
     now ← intTime 1;
     un ← usn;
     db_execute (restore_siblings now un (card_nid c)) ;;
     in_db (with_live (_updateStats c ty (-1))) ;;
     modify (with_col (fun cl =>
       with_sched (mkSched (sched_class (sched cl)) (reps (sched cl) - 1)) cl)) ;;
     mret (Some (card_id c)))
    (fun r => r = Some (card_id c))).
  { unfold Card_note, Note_flush, Card_flush.
    eapply yields_bind with (P := anything).
    { destruct wl; [apply yields_ret; exact I|]. step. apply yields_ret. exact I. }
    intros remove _.
    eapply yields_bind with (P := anything).
    { apply yields_when. step. eauto with anki. }
    intros _ _. step. step.
    eapply yields_bind.
    { apply yields_when. step. eauto with anki. }
    intros _ _. step. step. step. step. step.
    apply yields_ret. reflexivity. }
  unfold undo. unfold mbind at 1, M_bind at 1, gets at 1. rewrite Hu.
  unfold _undoReview.
  unfold mbind at 1, M_bind at 1, gets at 1. rewrite Hu, py_pop_snoc, Hty.
  set (w1 := with_col (with_undo (Some (ReviewUndo nm d wl))) w).
  set (w2 := if bool_decide (d = []) then with_col (with_undo None) w1 else w1).
  destruct (returns_elim _ _ _ (Hrest w2)) as (r & w' & Hrun & -> & Hu' & Hp').
  exists w'. unfold record_of. split; [|split].
  - unfold mbind at 1, M_bind at 1, modify at 1. fold w1.
    unfold mbind at 1, M_bind at 1. unfold when at 1, clearUndo, modify.
    subst w2. destruct (bool_decide (d = [])); exact Hrun.
  - rewrite Hu'. subst w2 w1. destruct (bool_decide (d = [])); reflexivity.
  - rewrite Hp'. subst w2 w1. destruct (bool_decide (d = [])); reflexivity.
Qed.

Lemma undoName_run (w : World) :
  undoName w = Ok (match _undo (col w) with
                   | Some (ReviewUndo name _ _) => Some name
                   | Some (CheckpointUndo name) => Some name
                   | None => None
                   end) w.
Proof. unfold undoName. run. destruct (_undo (col w)) as [[]|]; reflexivity. Qed.

Lemma markOp_run (name : option string) (w : World) :
  _markOp name w =
  Ok tt (with_col (with_undo (mark_checkpoint name (_undo (col w)))) w).
Proof.
  unfold _markOp. run.
  destruct w as [[d sv ls u sc] p t].
  destruct name as [[|a s]|]; cbn; try reflexivity;
    destruct u as [[]|]; reflexivity.
Qed.

End Facts.

(** ** Sessions *)

Section SessionFacts.
Context `{E : Externals}.
Variable activity : nat -> World -> World.
Hypothesis activity_keeps_undo :
  forall k w, _undo (col (activity k w)) = _undo (col w).

Lemma review_all_run (cs : list Card) : forall k w,
  exists w',
    review_all activity k cs w = Ok tt w' /\
    ((cs = [] /\ _undo (col w') = _undo (col w)) \/
     exists wl, _undo (col w') =
       Some (ReviewUndo TR_SCHEDULING_REVIEW (undo_entries (_undo (col w)) ++ cs) wl)).
Proof.
  induction cs as [|c cs IH]; intros k w.
  - exists w. split; [reflexivity|]. left. auto.
  - cbn [review_all]. unfold mbind at 1, M_bind at 1.
    rewrite markReview_run. unfold mbind at 1, M_bind at 1, modify at 1.
    set (w1 := activity k _).
    assert (H1 : _undo (col w1) = Some (ReviewUndo TR_SCHEDULING_REVIEW
              (undo_entries (_undo (col w)) ++ [c]) (note_is_leech w c))).
    { subst w1. rewrite activity_keeps_undo. reflexivity. }
    destruct (IH (S k) w1) as (w' & Hrun & Hrec).
    exists w'. split; [exact Hrun|]. right.
    destruct Hrec as [[-> Hsame] | [wl Hwl]].
    + eexists. rewrite Hsame. exact H1.
    + exists wl. rewrite Hwl, H1. cbn. rewrite <- app_assoc. reflexivity.
Qed.

Lemma undo_times_run (nm : string) (wl : bool) (cs : list Card) : forall k w,
  _undo (col w) = record_of nm wl cs ->
  Forall (fun c => is_Some (stats_type (card_queue c))) cs ->
  exists w',
    undo_times activity k (length cs) w =
      Ok (map (fun c => Some (card_id c)) (rev cs)) w' /\
    _undo (col w') = None.
Proof.
  induction cs as [|c d IH] using rev_ind; intros k w Hu Hok.
  - exists w. split; [reflexivity | exact Hu].
  - apply Forall_app in Hok as [Hd Hc].
    apply Forall_singleton in Hc as [ty Hty].
    unfold record_of in Hu. rewrite bool_decide_eq_false_2 in Hu
      by (intros Heq; destruct d; discriminate).
    destruct (undo_review_run nm d c wl ty w Hu Hty) as (w1 & Hrun & Hu1 & _).
    destruct (IH (S k) (activity k w1)) as (w' & Hrest & Hnone);
      [rewrite activity_keeps_undo; exact Hu1 | exact Hd |].
    exists w'. split; [|exact Hnone].
    rewrite length_app, Nat.add_1_r, rev_unit. cbn [undo_times length map].
    unfold mbind at 1, M_bind at 1. rewrite Hrun.
    unfold mbind at 1, M_bind at 1, modify at 1.
    unfold mbind at 1, M_bind at 1. rewrite Hrest. reflexivity.
Qed.

(** C1.  Cards marked for review one after the other, with no checkpoint in
    between, are handed back by as many calls of [undo] in the reverse order,
    most recent first, and the last of these calls leaves no undo record:
    [undoName] returns [None].  The session starts without review history,
    and the queue of every card names one of the daily counts. *)
Theorem review_undo_lifo (cs : list Card) (w : World) :
  is_review (_undo (col w)) = false ->
  cs <> [] ->
  Forall (fun c => is_Some (stats_type (card_queue c))) cs ->
  exists w',
    (review_all activity 0 cs ;;
     undo_times activity (length cs) (length cs)) w =
      Ok (map (fun c => Some (card_id c)) (rev cs)) w' /\
    _undo (col w') = None /\
    undoName w' = Ok None w'.
Proof.
  intros Hfresh Hne Hok.
  destruct (review_all_run cs 0%nat w) as (w1 & Hmark & Hrec).
  destruct Hrec as [[-> _] | [wl Hwl]]; [congruence|].
  assert (Hnil : undo_entries (_undo (col w)) = []).
  { destruct (_undo (col w)) as [[]|]; [discriminate | reflexivity | reflexivity]. }
  rewrite Hnil in Hwl. cbn in Hwl.
  destruct (undo_times_run TR_SCHEDULING_REVIEW wl cs (length cs) w1)
    as (w' & Hundo & Hnone); [|exact Hok|].
  { unfold record_of. rewrite bool_decide_eq_false_2 by exact Hne. exact Hwl. }
  exists w'. split; [|split].
  - unfold mbind, M_bind. rewrite Hmark. exact Hundo.
  - exact Hnone.
  - rewrite undoName_run, Hnone. reflexivity.
Qed.

End SessionFacts.

Section Claims.
Context `{E : Externals}.

(** ** The checkpoint log *)

(** [save], observed on the undo record, the storage and the probe. *)
Lemma save_run (name : option string) (mod_ : option Z) (trx : bool)
    (w : World) :
  exists w',
    save name mod_ trx w = Ok tt w' /\
    _undo (col w') = mark_checkpoint name (_undo (col w)) /\
    probe w' = probe w ++
      (if dirty w then EvCommit :: (if trx then [EvBegin] else [])
       else if trx then [] else [EvRollback]) /\
    (dirty w = false -> trx = true -> db (col w') = db (col w)) /\
    (dirty w = true ->
       live (db (col w')) =
         with_col_row (set_mod (stamp mod_ w)) (live (db (col w))) /\
       saved (db (col w')) = live (db (col w')) /\
       db_mod (db (col w')) = false /\
       open_trx (db (col w')) = (if trx then 1 else 0)%nat).
Proof.
  unfold save, dirty, stamp.
  unfold mbind at 1, M_bind at 1, gets at 1.
  destruct w as [[[flag begun lv sv n] srv lsv u sc] p t].
  cbn [db_mod db col].
  destruct flag; cbn [orb].
  - run.
    destruct mod_ as [v|], trx; cbn; rewrite !markOp_run; cbn;
      (eexists; split; [reflexivity|]);
      cbn; rewrite ?Z.div_mul by lia; rewrite <- ?app_assoc;
      repeat split; try reflexivity; try discriminate.
  - run.
    destruct (begun =? col_mod (col_row lv)) eqn:Hsame; cbn.
    + destruct trx; cbn; rewrite !markOp_run; cbn;
        (eexists; split; [reflexivity|]);
        cbn; rewrite ?app_nil_r;
        repeat split; try reflexivity; try discriminate.
    + destruct mod_ as [v|], trx; cbn; rewrite !markOp_run; cbn;
        (eexists; split; [reflexivity|]);
        cbn; rewrite ?Z.div_mul by lia; rewrite <- ?app_assoc;
        repeat split; try reflexivity; try discriminate.
Qed.

(** C2.  [_markOp] with a non-empty label replaces whatever record there is
    by a checkpoint carrying the label; without a label it clears the record
    when the record is a checkpoint and changes nothing at all otherwise, so
    a review record keeps its cards and its flag.  [save] does to the record
    what [_markOp] does. *)
Theorem markOp_replaces_or_clears (w : World) :
  (forall label, label <> "" ->
     _markOp (Some label) w =
       Ok tt (with_col (with_undo (Some (CheckpointUndo label))) w)) /\
  (is_checkpoint (_undo (col w)) = true ->
     _markOp None w = Ok tt (with_col (with_undo None) w)) /\
  (is_checkpoint (_undo (col w)) = false -> _markOp None w = Ok tt w) /\
  (forall nm d wl w', _undo (col w) = Some (ReviewUndo nm d wl) ->
     _markOp None w = Ok tt w' ->
     _undo (col w') = Some (ReviewUndo nm d wl)) /\
  (forall name mod_ trx, exists w1 w2,
     _markOp name w = Ok tt w1 /\ save name mod_ trx w = Ok tt w2 /\
     _undo (col w2) = _undo (col w1)).
Proof.
  repeat split.
  - intros label Hne. rewrite markOp_run.
    destruct label as [|a s]; [congruence | reflexivity].
  - intros Hcp. rewrite markOp_run. cbn. rewrite Hcp. reflexivity.
  - intros Hcp. rewrite markOp_run. cbn. rewrite Hcp.
    destruct w as [[] ? ?]. reflexivity.
  - intros nm d wl w' Hu. rewrite markOp_run. intros [= <-]. cbn.
    rewrite Hu. reflexivity.
  - intros name mod_ trx.
    destruct (save_run name mod_ trx w) as (w2 & Hsave & Hu & _).
    eexists. exists w2. split; [apply markOp_run|]. split; [exact Hsave|].
    rewrite Hu. reflexivity.
Qed.

(** C3, as the code has it.  [markReview] appends the snapshot to the cards
    of a review record, or starts from no cards when the record is not a
    review record, and in both cases sets the flag to whether the note of
    the newly reviewed card carries the leech tag: the flag of an existing
    review record is overwritten. *)
Theorem markReview_appends_and_reflags (c : Card) (w : World) :
  exists w',
    markReview c w = Ok tt w' /\
    _undo (col w') =
      Some (ReviewUndo TR_SCHEDULING_REVIEW
              (undo_entries (_undo (col w)) ++ [c]) (note_is_leech w c)) /\
    db (col w') = db (col w) /\ sched (col w') = sched (col w) /\
    probe w' = probe w.
Proof.
  rewrite markReview_run. eexists. split; [reflexivity|].
  repeat split.
Qed.

(** ** The transaction guard *)

(** C4.  A [save] on a storage that is not dirty commits nothing: with
    [trx] it touches neither the storage nor the probe, without [trx] it
    rolls back once.  On a dirty storage it stamps the modified timestamp
    with the caller's value or the clock's, commits once, lowers the
    mutation flag, and begins a new transaction exactly when [trx]. *)
Theorem save_commit_rules (name : option string) (mod_ : option Z)
    (trx : bool) (w : World) :
  exists w',
    save name mod_ trx w = Ok tt w' /\
    (dirty w = false ->
       probe w' = probe w ++ (if trx then [] else [EvRollback]) /\
       (trx = true -> db (col w') = db (col w))) /\
    (dirty w = true ->
       probe w' = probe w ++ EvCommit :: (if trx then [EvBegin] else []) /\
       live (db (col w')) =
         with_col_row (set_mod (stamp mod_ w)) (live (db (col w))) /\
       saved (db (col w')) = live (db (col w')) /\
       db_mod (db (col w')) = false /\
       open_trx (db (col w')) = (if trx then 1 else 0)%nat).
Proof.
  destruct (save_run name mod_ trx w) as (w' & Hsave & _ & Hp & Hclean & Hdirty).
  exists w'. split; [exact Hsave|]. split.
  - intros Hd. rewrite Hd in Hp. auto.
  - intros Hd. rewrite Hd in Hp. auto.
Qed.

(** ** Undo *)

(** C9.  [undo] has no answer for a collection without undo record: it
    fails on subscripting [None], with the collection untouched, and this is
    no error of the collection's own.  Whenever [undo] returns, a record was
    there, which is the same as [undoName] returning a label. *)
Theorem undo_needs_record (w : World) :
  (_undo (col w) = None <-> undoName w = Ok None w) /\
  (_undo (col w) = None -> undo w = Raise TypeError w) /\
  (forall r w', undo w = Ok r w' ->
     exists label, undoName w = Ok (Some label) w).
Proof.
  rewrite undoName_run. repeat split.
  - intros ->. reflexivity.
  - destruct (_undo (col w)) as [[]|]; [discriminate.. | reflexivity].
  - intros Hu. unfold undo. run. rewrite Hu. reflexivity.
  - intros r w'. unfold undo. unfold mbind at 1, M_bind at 1, gets at 1.
    destruct (_undo (col w)) as [[nm d wl | nm]|]; [eauto | eauto |].
    discriminate.
Qed.

(** C10.  Undoing a checkpoint rolls the open transaction back, begins a
    new one at once and clears the record: the collection is inside one
    open transaction again, on the tables of the last commit. *)
Theorem undo_checkpoint_reopens (label : string) (w : World) :
  _undo (col w) = Some (CheckpointUndo label) ->
  exists w',
    undo w = Ok None w' /\
    _undo (col w') = None /\
    probe w' = probe w ++ [EvRollback; EvBegin] /\
    open_trx (db (col w')) = 1%nat /\
    live (db (col w')) = saved (db (col w)) /\
    saved (db (col w')) = saved (db (col w)) /\
    last_begin_at (db (col w')) = col_mod (col_row (saved (db (col w)))).
Proof.
  intros Hu. unfold undo. unfold mbind at 1, M_bind at 1, gets at 1.
  rewrite Hu. run. eexists. split; [reflexivity|]. cbn.
  rewrite <- app_assoc. repeat split.
Qed.

(** ** The scheduler version *)

Lemma supported_inv (ver : Z) :
  ver ∈ supportedSchedulerVersions -> ver = 1 \/ ver = 2.
Proof.
  unfold supportedSchedulerVersions. rewrite !elem_of_cons.
  intros [? | [? | Hnil]]; [auto | auto | inversion Hnil].
Qed.

Lemma supported_intro (ver : Z) :
  ver = 1 \/ ver = 2 -> ver ∈ supportedSchedulerVersions.
Proof. unfold supportedSchedulerVersions. rewrite !elem_of_cons. tauto. Qed.

Lemma schedVer_inv (cur : Z) (w w' : World) :
  schedVer w = Ok cur w' ->
  w' = w /\ cur ∈ supportedSchedulerVersions /\
  default 1 (persisted_version w) = cur.
Proof.
  unfold schedVer, persisted_version. run.
  destruct (bool_decide _) eqn:Hin; [|discriminate].
  apply bool_decide_eq_true_1 in Hin. intros [= <- <-]. auto.
Qed.

Lemma schedVer_unsupported (w : World) :
  default 1 (persisted_version w) ∉ supportedSchedulerVersions ->
  schedVer w = Raise (Exception "Unsupported scheduler version") w.
Proof.
  intros Hout. unfold schedVer, persisted_version in *. run.
  rewrite bool_decide_eq_false_2 by exact Hout. reflexivity.
Qed.

Lemma schedVer_supported (w : World) :
  default 1 (persisted_version w) ∈ supportedSchedulerVersions ->
  schedVer w = Ok (default 1 (persisted_version w)) w.
Proof.
  intros Hin. unfold schedVer, persisted_version in *. run.
  rewrite bool_decide_eq_true_2 by exact Hin. reflexivity.
Qed.

(** The schema gate lets through: the schema is stamped and saved. *)
Lemma modSchema_run (check : bool) (w : World) :
  col_ls (col_row (live (db (col w)))) < col_scm (col_row (live (db (col w))))
  \/ check = false \/ schema_will_change true = true ->
  exists w',
    modSchema check w = Ok tt w' /\
    probe w' = probe w ++ [EvCommit; EvBegin] /\
    col_scm (col_row (live (db (col w')))) = clock_ms (ticks w) /\
    col_scm (col_row (saved (db (col w')))) = clock_ms (ticks w) /\
    _undo (col w') = mark_checkpoint None (_undo (col w)).
Proof.
  intros Hgate. unfold modSchema.
  unfold mbind at 1, M_bind at 1. unfold schemaChanged. run.
  assert (Hpass :
    (col_ls (col_row (live (db (col w)))) <? col_scm (col_row (live (db (col w)))))
      = true \/ check && negb (schema_will_change true) = false).
  { destruct Hgate as [Hlt | [-> | ->]].
    - left. apply Z.ltb_lt. exact Hlt.
    - right. reflexivity.
    - right. apply andb_false_r. }
  assert (Hgo : forall w0 : World,
    match (col_ls (col_row (live (db (col w)))) <? col_scm (col_row (live (db (col w)))))
    with
    | false => if check && negb (schema_will_change true)
               then raise (AnkiError "abortSchemaMod") else mret ()
    | true => mret ()
    end w0 = Ok () w0).
  { intros w0. destruct Hpass as [-> | Hpass]; [reflexivity|].
    rewrite Hpass. destruct (_ <? _); reflexivity. }
  unfold raise, mret, M_ret in Hgo. rewrite Hgo. cbn.
  destruct (save_run None None true
    (with_col (with_db (fun d => with_db_mod true
       (with_live (with_col_row (set_scm (clock_ms (ticks w) * 1000 / 1000))) d)))
       (mkWorld (col w) (probe w) (S (ticks w)))))
    as (w' & Hsave & Hu & Hp & _ & Hdirty).
  exists w'. split; [exact Hsave|].
  cbn in Hp, Hu.
  destruct Hdirty as (Hlive & Hcommitted & _); [reflexivity|].
  cbn in Hlive. rewrite Z.div_mul in * by lia.
  assert (Hscm : col_scm (col_row (live (db (col w')))) = clock_ms (ticks w)).
  { rewrite Hlive. reflexivity. }
  repeat split; [exact Hp | exact Hscm | rewrite Hcommitted; exact Hscm | exact Hu].
Qed.

(** C5.  When the schema has not diverged from the last sync and the
    confirmation hook refuses, a change to another supported version fails
    with the abort signal and leaves everything as it was: persisted
    version, schema timestamp, scheduler, storage and undo record. *)
Theorem changeSchedulerVer_refused (ver cur : Z) (w : World) :
  schedVer w = Ok cur w ->
  ver ∈ supportedSchedulerVersions ->
  ver <> cur ->
  col_scm (col_row (live (db (col w)))) <= col_ls (col_row (live (db (col w)))) ->
  schema_will_change true = false ->
  modSchema true w = Raise (AnkiError "abortSchemaMod") w /\
  changeSchedulerVer ver w = Raise (AnkiError "abortSchemaMod") w.
Proof.
  intros Hcur Hin Hne Hsync Hveto.
  assert (Hgate : modSchema true w = Raise (AnkiError "abortSchemaMod") w).
  { unfold modSchema. unfold mbind at 1, M_bind at 1. unfold schemaChanged. run.
    apply Z.ltb_ge in Hsync. rewrite Hsync, Hveto. reflexivity. }
  split; [exact Hgate|].
  unfold changeSchedulerVer. unfold mbind at 1, M_bind at 1. rewrite Hcur.
  apply Z.eqb_neq in Hne. rewrite Hne.
  rewrite bool_decide_eq_true_2 by exact Hin. cbn [negb].
  unfold mbind at 1, M_bind at 1. rewrite Hgate. reflexivity.
Qed.

(** C6.  A change to the version in use returns at once with nothing
    touched; a change to a version that is not supported fails with the
    configuration error, again with nothing touched. *)
Theorem changeSchedulerVer_noop_or_unsupported (ver : Z) (w : World) :
  (schedVer w = Ok ver w -> changeSchedulerVer ver w = Ok tt w) /\
  (ver ∉ supportedSchedulerVersions ->
   changeSchedulerVer ver w =
     Raise (Exception "Unsupported scheduler version") w).
Proof.
  split.
  - intros Hcur. unfold changeSchedulerVer. unfold mbind, M_bind.
    rewrite Hcur, Z.eqb_refl. reflexivity.
  - intros Hout. unfold changeSchedulerVer. unfold mbind at 1, M_bind at 1.
    destruct (decide (default 1 (persisted_version w) ∈ supportedSchedulerVersions))
      as [Hin | Hbad].
    + rewrite (schedVer_supported w Hin).
      destruct (Z.eqb_spec ver (default 1 (persisted_version w))) as [-> | _];
        [contradiction|].
      rewrite bool_decide_eq_false_2 by exact Hout. reflexivity.
    + rewrite (schedVer_unsupported w Hbad). reflexivity.
Qed.

(** C7, as the code has it.  A change between two supported versions that
    passes the schema gate clears the undo record once, after the forced
    save and before the migration routine, runs that routine once in the
    requested direction, persists the version and loads its scheduler.  The
    record is not cleared again: on return it is what the routine made of
    the empty record, hence empty when the routine leaves the record
    alone. *)
Theorem changeSchedulerVer_clears_before_migration (ver cur : Z) (w : World) :
  schedVer w = Ok cur w ->
  ver ∈ supportedSchedulerVersions ->
  ver <> cur ->
  col_ls (col_row (live (db (col w)))) < col_scm (col_row (live (db (col w))))
  \/ schema_will_change true = true ->
  exists w1 w',
    modSchema true w = Ok tt w1 /\
    changeSchedulerVer ver w = Ok tt w' /\
    _undo (col w') = _undo (migration ver (with_undo None (col w1))) /\
    probe w' = probe w ++ [EvCommit; EvBegin; migration_event ver] /\
    sched (col w') = fresh_scheduler ver /\
    persisted_version w' = Some ver /\
    ((forall c', _undo (migration ver c') = _undo c') -> _undo (col w') = None).
Proof.
  intros Hcur Hin Hne Hgate.
  destruct (modSchema_run true w) as (w1 & Hmod & Hp1 & _); [tauto|].
  exists w1. cut (exists w',
    changeSchedulerVer ver w = Ok tt w' /\
    _undo (col w') = _undo (migration ver (with_undo None (col w1))) /\
    probe w' = probe w ++ [EvCommit; EvBegin; migration_event ver] /\
    sched (col w') = fresh_scheduler ver /\
    persisted_version w' = Some ver /\
    ((forall c', _undo (migration ver c') = _undo c') -> _undo (col w') = None)).
  { intros (w' & H). exists w'. split; [exact Hmod | exact H]. }
  unfold changeSchedulerVer. unfold mbind at 1, M_bind at 1. rewrite Hcur.
  apply Z.eqb_neq in Hne. rewrite Hne.
  rewrite bool_decide_eq_true_2 by exact Hin. cbn [negb].
  unfold mbind at 1, M_bind at 1. rewrite Hmod.
  unfold migration, migration_event, fresh_scheduler, persisted_version.
  unfold _loadScheduler, schedVer.
  destruct (supported_inv ver Hin) as [-> | ->]; run;
    rewrite lookup_insert_eq; cbn;
    (eexists; split; [reflexivity|]); cbn;
    rewrite Hp1, <- app_assoc, ?lookup_insert_eq;
    repeat split; auto.
Qed.

End Claims.

(** ** The methods on the test doubles *)

Section Examples.
Import Double.
#[local] Existing Instance granting.

(** With the queue constants of anki.consts, the cards [_undoReview] finds a
    daily count for are those with a queue from -3 (buried) to 4
    (preview). *)
Lemma stats_type_standard_range (q : Z) :
  is_Some (stats_type q) <-> -3 <= q <= 4.
Proof.
  unfold stats_type, py_index.
  change QUEUE_TYPE_DAY_LEARN_RELEARN with 3.
  change QUEUE_TYPE_PREVIEW with 4.
  change QUEUE_TYPE_LRN with 1.
  change (Z.of_nat (length ["new"; "lrn"; "rev"])) with 3.
  destruct (Z.eqb_spec q 3) as [-> | H3]; [split; [lia | eauto]|].
  destruct (Z.eqb_spec q 4) as [-> | H4]; [split; [lia | eauto]|].
  cbn [orb].
  destruct (Z.leb_spec 0 q) as [Hpos | Hneg].
  - etransitivity; [apply lookup_lt_is_Some|]. cbn [length]. lia.
  - destruct (Z.leb_spec (Z.opp 3) q) as [Hlow | Hlow].
    + etransitivity; [apply lookup_lt_is_Some|]. cbn [length]. lia.
    + split; [intros [? [=]] | lia].
Qed.

(** A queue outside that range makes [undo] fail after the card is popped. *)
Lemma undo_odd_queue :
  let r := (markReview card_odd ;; undo) world0 in
  r = Raise IndexError (final r) /\ _undo (col (final r)) = None.
Proof. vm_compute. split; reflexivity. Qed.

Lemma review_undo_lifo_witness :
  exists w',
    (review_all (fun _ => add_leech 1) 0 [card1; card2; card3] ;;
     undo_times (fun _ => add_leech 1) 3 3) world0 =
      Ok [Some 103; Some 102; Some 101] w' /\
    _undo (col w') = None /\
    undoName w' = Ok None w'.
Proof.
  apply (review_undo_lifo (fun _ => add_leech 1) (fun _ _ => eq_refl)
           [card1; card2; card3] world0).
  - reflexivity.
  - discriminate.
  - repeat constructor; eexists; reflexivity.
Defined.

Lemma markOp_replaces_or_clears_witness :
  _markOp (Some "Add") world_review =
    Ok tt (with_col (with_undo (Some (CheckpointUndo "Add"))) world_review) /\
  _markOp None world_checkpoint =
    Ok tt (with_col (with_undo None) world_checkpoint) /\
  _markOp None world_review = Ok tt world_review.
Proof.
  split; [|split].
  - apply (proj1 (markOp_replaces_or_clears world_review)). discriminate.
  - apply (proj1 (proj2 (markOp_replaces_or_clears world_checkpoint))).
    reflexivity.
  - apply (proj1 (proj2 (proj2 (markOp_replaces_or_clears world_review)))).
    reflexivity.
Defined.

(** C3, as the claim has it, fails: a review record whose flag is down gets
    its flag raised by marking a card whose note is a leech. *)
Lemma markReview_overwrites_flag :
  _undo (col world_review) = Some (ReviewUndo "Review" [card1] false) /\
  exists w',
    markReview card2 world_review = Ok tt w' /\
    _undo (col w') = Some (ReviewUndo "Review" [card1; card2] true).
Proof.
  split; [reflexivity|].
  exists (final (markReview card2 world_review)).
  split; vm_compute; reflexivity.
Qed.

Lemma save_commit_rules_witness :
  (exists w',
     save None None true world0 = Ok tt w' /\
     probe w' = [] /\ db (col w') = db (col world0)) /\
  (exists w',
     save None None false world0 = Ok tt w' /\ probe w' = [EvRollback]) /\
  (exists w',
     save (Some "Add") (Some 42) true world_dirty = Ok tt w' /\
     probe w' = [EvCommit; EvBegin] /\
     col_mod (col_row (live (db (col w')))) = 42 /\
     db_mod (db (col w')) = false /\
     open_trx (db (col w')) = 1%nat).
Proof.
  split; [|split].
  - destruct (save_commit_rules None None true world0) as (w' & Hrun & Hclean & _).
    exists w'. destruct (Hclean eq_refl) as [Hp Hdb].
    split; [exact Hrun|]. split; [exact Hp | exact (Hdb eq_refl)].
  - destruct (save_commit_rules None None false world0) as (w' & Hrun & Hclean & _).
    exists w'. destruct (Hclean eq_refl) as [Hp _].
    split; [exact Hrun | exact Hp].
  - destruct (save_commit_rules (Some "Add") (Some 42) true world_dirty)
      as (w' & Hrun & _ & Hdirty).
    exists w'. destruct (Hdirty eq_refl) as (Hp & Hlive & _ & Hflag & Htrx).
    split; [exact Hrun|]. split; [exact Hp|].
    split; [rewrite Hlive; reflexivity|]. split; [exact Hflag | exact Htrx].
Defined.

Lemma undo_needs_record_witness :
  undoName world0 = Ok None world0 /\
  undo world0 = Raise TypeError world0.
Proof.
  split.
  - apply (proj1 (proj1 (undo_needs_record world0))). reflexivity.
  - apply (proj1 (proj2 (undo_needs_record world0))). reflexivity.
Defined.

Lemma undo_checkpoint_reopens_witness :
  exists w',
    undo world_checkpoint = Ok None w' /\
    _undo (col w') = None /\
    probe w' = [EvRollback; EvBegin] /\
    open_trx (db (col w')) = 1%nat.
Proof.
  destruct (undo_checkpoint_reopens "Add" world_checkpoint eq_refl)
    as (w' & Hrun & Hu & Hp & Htrx & _).
  exists w'. split; [exact Hrun|]. split; [exact Hu|].
  split; [exact Hp | exact Htrx].
Defined.

Lemma changeSchedulerVer_refused_witness :
  changeSchedulerVer (E := refusing) 2 world0 =
    Raise (AnkiError "abortSchemaMod") world0.
Proof.
  apply (proj2 (changeSchedulerVer_refused (E := refusing) 2 1 world0
                  eq_refl (supported_intro 2 (or_intror eq_refl))
                  ltac:(discriminate)
                  ltac:(vm_compute; discriminate) eq_refl)).
Defined.

Lemma changeSchedulerVer_noop_or_unsupported_witness :
  changeSchedulerVer 1 world0 = Ok tt world0 /\
  changeSchedulerVer 3 world0 =
    Raise (Exception "Unsupported scheduler version") world0.
Proof.
  split.
  - apply (proj1 (changeSchedulerVer_noop_or_unsupported 1 world0)).
    reflexivity.
  - apply (proj2 (changeSchedulerVer_noop_or_unsupported 3 world0)).
    intros Hin. apply supported_inv in Hin. destruct Hin; discriminate.
Defined.

Lemma changeSchedulerVer_clears_before_migration_witness :
  exists w',
    changeSchedulerVer 2 world_checkpoint = Ok tt w' /\
    _undo (col w') = None /\
    probe w' = [EvCommit; EvBegin; EvMoveToV2] /\
    sched (col w') = mkSched V2Scheduler 0 /\
    persisted_version w' = Some 2.
Proof.
  destruct (changeSchedulerVer_clears_before_migration 2 1 world_checkpoint)
    as (w1 & w' & _ & Hrun & _ & Hp & Hsched & Hver & Hclear).
  - reflexivity.
  - apply supported_intro. right. reflexivity.
  - discriminate.
  - right. reflexivity.
  - exists w'. split; [exact Hrun|].
    split; [apply Hclear; reflexivity|].
    split; [exact Hp|]. split; [exact Hsched | exact Hver].
Defined.

(** C7, as the claim has it, fails: the checkpoint a migration routine
    leaves behind is still there when the version change returns. *)
Lemma changeSchedulerVer_keeps_migration_record :
  exists w',
    changeSchedulerVer (E := recording) 2 world_checkpoint = Ok tt w' /\
    probe w' = [EvCommit; EvBegin; EvMoveToV2] /\
    _undo (col w') = Some (CheckpointUndo "Upgrade") /\
    undoName w' = Ok (Some "Upgrade") w'.
Proof.
  exists (final (changeSchedulerVer (E := recording) 2 world_checkpoint)).
  split; [|split; [|split]]; vm_compute; reflexivity.
Qed.

(** C8 on stacked reviews.  Card 1 is reviewed while its note is no leech
    and the review makes it one; card 2, whose note is a leech already, is
    reviewed next.  Undoing both reviews leaves the leech tag on the note of
    card 1.  With the cards marked the other way round, undoing both takes
    the tag from the note of card 2, which carried it before its review. *)
Theorem undo_stacked_reviews_leech :
  (let r := (markReview card1 ;; modify (add_leech 1) ;;
             markReview card2 ;; undo ;; undo) world0 in
   note_is_leech world0 card1 = false /\
   result r = Some (Some 101) /\
   _undo (col (final r)) = None /\
   note_is_leech (final r) card1 = true) /\
  (let r := (markReview card2 ;; markReview card1 ;; modify (add_leech 1) ;;
             undo ;; undo) world0 in
   note_is_leech world0 card2 = true /\
   result r = Some (Some 102) /\
   _undo (col (final r)) = None /\
   note_is_leech (final r) card2 = false).
Proof. vm_compute. repeat split. Qed.

(** A single review is undone cleanly: the tag the review added goes, the
    tag that was there before stays. *)
Lemma undo_single_review_leech :
  (let r := (markReview card1 ;; modify (add_leech 1) ;; undo) world0 in
   note_is_leech world0 card1 = false /\
   result r = Some (Some 101) /\
   note_is_leech (final r) card1 = false) /\
  (let r := (markReview card2 ;; undo) world0 in
   note_is_leech world0 card2 = true /\
   result r = Some (Some 102) /\
   note_is_leech (final r) card2 = true).
Proof. vm_compute. repeat split. Qed.

End Examples.

(** ** Further properties of the transaction guard and the schema gate *)

Section GuardFacts.
Context `{E : Externals}.

(** A save of a dirty storage that keeps the transaction open, in full. *)
Lemma save_dirty_inv (name : option string) (mod_ : option Z) (w w' : World) :
  save name mod_ true w = Ok tt w' ->
  dirty w = true ->
  live (db (col w')) = with_col_row (set_mod (stamp mod_ w)) (live (db (col w))) /\
  saved (db (col w')) = live (db (col w')) /\
  db_mod (db (col w')) = false /\
  last_begin_at (db (col w')) = stamp mod_ w /\
  open_trx (db (col w')) = 1%nat /\
  probe w' = probe w ++ [EvCommit; EvBegin] /\
  _undo (col w') = mark_checkpoint name (_undo (col w)).
Proof.
  unfold save, dirty, stamp.
  unfold mbind at 1, M_bind at 1, gets at 1.
  destruct w as [[[flag begun lv sv n] srv lsv u sc] p t].
  cbn [db_mod db col live last_begin_at].
  destruct flag; cbn [orb].
  - run. destruct mod_ as [v|]; cbn; rewrite !markOp_run; cbn;
      intros [= <-] _; cbn; rewrite ?Z.div_mul by lia; rewrite <- ?app_assoc;
      repeat split; reflexivity.
  - run. destruct (begun =? col_mod (col_row lv)) eqn:Hsame; cbn;
      [intros _ [=]|].
    destruct mod_ as [v|]; cbn; rewrite !markOp_run; cbn;
      intros [= <-] _; cbn; rewrite ?Z.div_mul by lia; rewrite <- ?app_assoc;
      repeat split; reflexivity.
Qed.

Lemma modSchema_inv (check : bool) (w w' : World) :
  modSchema check w = Ok tt w' ->
  live (db (col w')) =
    with_col_row (set_mod (clock_ms (S (ticks w))))
      (with_col_row (set_scm (clock_ms (ticks w))) (live (db (col w)))) /\
  saved (db (col w')) = live (db (col w')) /\
  db_mod (db (col w')) = false /\
  last_begin_at (db (col w')) = clock_ms (S (ticks w)) /\
  open_trx (db (col w')) = 1%nat /\
  probe w' = probe w ++ [EvCommit; EvBegin] /\
  _undo (col w') = mark_checkpoint None (_undo (col w)).
Proof.
  unfold modSchema. unfold mbind at 1, M_bind at 1. unfold schemaChanged. run.
  assert (Hsave : forall w0,
    save None None true
      (with_col (with_db (fun d => with_db_mod true
         (with_live (with_col_row (set_scm (clock_ms (ticks w) * 1000 / 1000))) d)))
         (mkWorld (col w) (probe w) (S (ticks w)))) = Ok tt w0 ->
    live (db (col w0)) =
      with_col_row (set_mod (clock_ms (S (ticks w))))
        (with_col_row (set_scm (clock_ms (ticks w))) (live (db (col w)))) /\
    saved (db (col w0)) = live (db (col w0)) /\
    db_mod (db (col w0)) = false /\
    last_begin_at (db (col w0)) = clock_ms (S (ticks w)) /\
    open_trx (db (col w0)) = 1%nat /\
    probe w0 = probe w ++ [EvCommit; EvBegin] /\
    _undo (col w0) = mark_checkpoint None (_undo (col w))).
  { intros w0 Hrun. apply save_dirty_inv in Hrun; [|reflexivity].
    cbn in Hrun. rewrite Z.div_mul in Hrun by lia. exact Hrun. }
  destruct (_ <? _); [|destruct (check && _); [discriminate|]];
    cbn; apply Hsave.
Qed.

(** X1.  A schema modification that needs no confirmation, because the
    schema has diverged from the last sync already or no check is asked
    for, or that is confirmed, always goes through: the schema timestamp is
    the clock's reading, in the live and in the committed tables alike, the
    change is committed once and a new transaction begun, and the storage is
    clean afterwards. *)
Theorem modSchema_stamps_and_commits (check : bool) (w : World) :
  col_ls (col_row (live (db (col w)))) < col_scm (col_row (live (db (col w))))
  \/ check = false \/ schema_will_change true = true ->
  exists w',
    modSchema check w = Ok tt w' /\
    col_scm (col_row (live (db (col w')))) = clock_ms (ticks w) /\
    saved (db (col w')) = live (db (col w')) /\
    probe w' = probe w ++ [EvCommit; EvBegin] /\
    open_trx (db (col w')) = 1%nat /\
    dirty w' = false.
Proof.
  intros Hgate. destruct (modSchema_run check w Hgate) as (w' & Hrun & _).
  exists w'. split; [exact Hrun|].
  destruct (modSchema_inv check w w' Hrun)
    as (Hlive & Hsaved & Hflag & Hbegun & Htrx & Hp & _).
  unfold dirty. rewrite Hflag, Hbegun, Hlive. cbn. rewrite Z.eqb_refl.
  rewrite <- Hlive. repeat split; assumption.
Qed.


(** X3.  A save that keeps the transaction open leaves a clean storage, so
    that a save right after it neither commits nor rolls back. *)
Theorem save_twice_commits_once (name name' : option string)
    (mod_ mod_' : option Z) (w : World) :
  exists w1 w2,
    save name mod_ true w = Ok tt w1 /\
    dirty w1 = false /\
    save name' mod_' true w1 = Ok tt w2 /\
    probe w2 = probe w1 /\
    db (col w2) = db (col w1).
Proof.
  assert (Hclean : exists w1, save name mod_ true w = Ok tt w1 /\ dirty w1 = false).
  { unfold save, dirty. unfold mbind at 1, M_bind at 1, gets at 1.
    destruct w as [[[flag begun lv sv n] srv lsv u sc] p t].
    cbn [db_mod db col]. destruct flag.
    - run. destruct mod_ as [v|]; cbn; rewrite !markOp_run; cbn;
        (eexists; split; [reflexivity|]); cbn; rewrite Z.eqb_refl; reflexivity.
    - run. destruct (begun =? col_mod (col_row lv)) eqn:Hsame; cbn.
      + rewrite !markOp_run; cbn. eexists; split; [reflexivity|]. cbn.
        rewrite Hsame. reflexivity.
      + destruct mod_ as [v|]; cbn; rewrite !markOp_run; cbn;
          (eexists; split; [reflexivity|]); cbn; rewrite Z.eqb_refl; reflexivity. }
  destruct Hclean as (w1 & Hrun1 & Hclean).
  destruct (save_run name' mod_' true w1) as (w2 & Hrun2 & _ & Hp & Hdb & _).
  exists w1, w2. rewrite Hclean in Hp. rewrite app_nil_r in Hp.
  repeat split; auto.
Qed.

End GuardFacts.

(** ** What a review undo does to the storage *)

Section ReviewUndoFacts.
Context `{E : Externals}.

Ltac split_conditions :=
  repeat match goal with
  | |- context [if ?b then _ else _] => destruct b eqn:?; cbn
  | |- context [match ?b with true => _ | false => _ end] => destruct b eqn:?; cbn
  | |- context [delete_revlog ?l] => destruct l eqn:?; cbn
  end.

(** The tables [_undoReview] hands to [_updateStats], table by table. *)
Lemma undo_review_effects (nm : string) (d : list Card) (c : Card) (wl : bool)
    (ty : string) (w : World) :
  _undo (col w) = Some (ReviewUndo nm (d ++ [c]) wl) ->
  stats_type (card_queue c) = Some ty ->
  exists (w' : World) (T : Tables) (now : Z),
    undo w = Ok (Some (card_id c)) w' /\
    live (db (col w')) = _updateStats c ty (-1) T /\
    note_tags T =
      (if negb wl && note_is_leech w c
       then <[card_nid c := filter (fun t => t ≠ "leech")
                (default [] (note_tags (live (db (col w))) !! card_nid c))]>
              (note_tags (live (db (col w))))
       else note_tags (live (db (col w)))) /\
    cards T =
      cards (restore_siblings now
               (if server (col w) then col_usn (col_row (live (db (col w)))) else -1)
               (card_nid c)
               (with_cards (insert (card_id c) c) (live (db (col w))))) /\
    ((forall t, dyn (_cardConf t c) && negb (resched (_cardConf t c)) = false) ->
     revlog T = revlog (delete_revlog (last_revlog (card_id c) (live (db (col w))))
                                      (live (db (col w))))) /\
    ((forall t, dyn (_cardConf t c) && negb (resched (_cardConf t c)) = true) ->
     revlog T = revlog (live (db (col w)))) /\
    sched (col w') =
      mkSched (sched_class (sched (col w))) (reps (sched (col w)) - 1) /\
    saved (db (col w')) = saved (db (col w)) /\
    open_trx (db (col w')) = open_trx (db (col w)) /\
    db_mod (db (col w')) = true.
Proof.
  intros Hu Hty. unfold undo. unfold mbind at 1, M_bind at 1, gets at 1.
  rewrite Hu. unfold _undoReview.
  unfold mbind at 1, M_bind at 1, gets at 1. rewrite Hu, py_pop_snoc, Hty.
  destruct w as [[dbp srv lsv u sc] p t]. cbn in Hu. subst u.
  unfold note_is_leech, hasTag, last_revlog. run.
  split_conditions;
    (eexists; eexists; eexists; split; [reflexivity|]); cbn;
    (split; [reflexivity|]); (split; [reflexivity|]); (split; [reflexivity|]);
    (split; [intros Hconf|split; [intros Hconf|]]);
    try (rewrite Hconf in *; discriminate);
    try reflexivity;
    repeat split; reflexivity.
Qed.

Lemma filter_absent (tag : string) (l : list string) :
  tag ∉ l -> filter (fun t => t ≠ tag) l = l.
Proof.
  induction l as [|a l IH]; [reflexivity|].
  rewrite not_elem_of_cons. intros [Hne Hl].
  rewrite filter_cons_True by congruence. rewrite IH by exact Hl. reflexivity.
Qed.

Lemma filter_removes (tag : string) (l : list string) :
  tag ∉ filter (fun t => t ≠ tag) l.
Proof. rewrite list_elem_of_filter. tauto. Qed.

Lemma last_revlog_None (cid : Z) (t : Tables) :
  last_revlog cid t = None <->
  forall r, r ∈ revlog t -> revlog_cid r <> cid.
Proof.
  unfold last_revlog. induction (revlog t) as [|r0 l IH]; cbn.
  - split; [intros _ r Hr; inversion Hr | reflexivity].
  - destruct (Z.eqb_spec (revlog_cid r0) cid) as [Hc | Hc].
    + split.
      * destruct (foldr _ None l); discriminate.
      * intros Hall. destruct (Hall r0); [apply elem_of_cons; auto | exact Hc].
    + rewrite IH. split.
      * intros Hall r Hr. apply elem_of_cons in Hr as [Heq | Hr];
          [subst r; exact Hc | auto].
      * intros Hall r Hr. apply Hall. apply elem_of_cons. auto.
Qed.

Lemma last_revlog_sound (cid m : Z) (t : Tables) :
  last_revlog cid t = Some m ->
  (exists r, r ∈ revlog t /\ revlog_cid r = cid /\ revlog_id r = m) /\
  (forall r, r ∈ revlog t -> revlog_cid r = cid -> revlog_id r <= m).
Proof.
  unfold last_revlog. revert m.
  induction (revlog t) as [|r0 l IH]; intros m; cbn; [discriminate|].
  destruct (Z.eqb_spec (revlog_cid r0) cid) as [Hc | Hc].
  - destruct (foldr _ None l) as [m0|] eqn:Hl.
    + destruct (IH m0 eq_refl) as ((r1 & Hr1 & Hc1 & Hi1) & Hmax).
      intros [= <-]. split.
      * destruct (Z.max_spec m0 (revlog_id r0)) as [[_ Hm] | [_ Hm]]; rewrite Hm.
        -- exists r0. split; [apply elem_of_cons; auto | auto].
        -- exists r1. split; [apply elem_of_cons; auto | auto].
      * intros r Hr Hcr. apply elem_of_cons in Hr as [Heq | Hr].
        -- subst r. lia.
        -- specialize (Hmax r Hr Hcr). lia.
    + intros [= <-]. split.
      * exists r0. split; [apply elem_of_cons; auto | auto].
      * intros r Hr Hcr. apply elem_of_cons in Hr as [Heq | Hr].
        -- subst r. lia.
        -- exfalso.
           exact (proj1 (last_revlog_None cid (mkTables (col_row t) (cards t)
                    (note_tags t) l (config t) (today_counts t))) Hl r Hr Hcr).
  - intros Hm. destruct (IH m Hm) as ((r & Hr & Hcr & Hi) & Hmax). split.
    + exists r. split; [apply elem_of_cons; auto | auto].
    + intros r' Hr' Hcr'. apply elem_of_cons in Hr' as [Heq | Hr'].
      * subst r'. contradiction.
      * auto.
Qed.

(** X4.  Undoing a review is no rollback: it calls neither commit nor
    rollback nor begin, leaves the committed tables and the open transaction
    alone, raises the mutation flag, so that the next save commits, and
    takes one off the scheduler's repetition counter. *)
Theorem undo_review_is_no_rollback (nm : string) (d : list Card) (c : Card)
    (wl : bool) (ty : string) (w : World) :
  _undo (col w) = Some (ReviewUndo nm (d ++ [c]) wl) ->
  stats_type (card_queue c) = Some ty ->
  exists w',
    undo w = Ok (Some (card_id c)) w' /\
    probe w' = probe w /\
    saved (db (col w')) = saved (db (col w)) /\
    open_trx (db (col w')) = open_trx (db (col w)) /\
    dirty w' = true /\
    reps (sched (col w')) = reps (sched (col w)) - 1 /\
    sched_class (sched (col w')) = sched_class (sched (col w)).
Proof.
  intros Hu Hty.
  destruct (undo_review_effects nm d c wl ty w Hu Hty)
    as (w' & T & now & Hrun & _ & _ & _ & _ & _ & Hsched & Hsaved & Htrx & Hflag).
  destruct (undo_review_run nm d c wl ty w Hu Hty) as (w2 & Hrun2 & _ & Hp).
  rewrite Hrun in Hrun2. injection Hrun2 as <-.
  exists w'. unfold dirty. rewrite Hflag, Hsched. repeat split; assumption.
Qed.




End ReviewUndoFacts.

(** ** Further properties of the undo log and of housekeeping *)

Section MoreFacts.
Context `{E : Externals}.

(** The clock reading a save leaves in [_lastSave]. *)
Lemma save_lastSave (name : option string) (mod_ : option Z) (trx : bool)
    (w : World) :
  exists w',
    save name mod_ trx w = Ok tt w' /\
    _lastSave (col w') =
      clock_ms (if dirty w
                then match mod_ with None => S (ticks w) | Some _ => ticks w end
                else ticks w).
Proof.
  unfold save, dirty.
  unfold mbind at 1, M_bind at 1, gets at 1.
  destruct w as [[[flag begun lv sv n] srv lsv u sc] p t].
  cbn [db_mod db col live last_begin_at ticks]. destruct flag; cbn [orb].
  - run. destruct mod_ as [v|], trx; cbn; rewrite !markOp_run; cbn;
      eexists; split; reflexivity.
  - run. destruct (begun =? col_mod (col_row lv)); cbn;
      destruct mod_ as [v|], trx; cbn; rewrite !markOp_run; cbn;
      eexists; split; reflexivity.
Qed.

(** A save that ends the transaction, in full. *)
Lemma save_closing_inv (name : option string) (mod_ : option Z) (w : World) :
  exists w',
    save name mod_ false w = Ok tt w' /\
    probe w' = probe w ++ [if dirty w then EvCommit else EvRollback] /\
    live (db (col w')) =
      (if dirty w
       then with_col_row (set_mod (stamp mod_ w)) (live (db (col w)))
       else saved (db (col w))) /\
    saved (db (col w')) = live (db (col w')) /\
    db_mod (db (col w')) = false /\
    open_trx (db (col w')) = 0%nat.
Proof.
  unfold save, dirty, stamp.
  unfold mbind at 1, M_bind at 1, gets at 1.
  destruct w as [[[flag begun lv sv n] srv lsv u sc] p t].
  cbn [db_mod db col live last_begin_at ticks saved probe]. destruct flag; cbn [orb].
  - run. destruct mod_ as [v|]; cbn; rewrite !markOp_run; cbn;
      (eexists; split; [reflexivity|]); cbn; rewrite ?Z.div_mul by lia;
      repeat split.
  - run. destruct (begun =? col_mod (col_row lv)); cbn;
      destruct mod_ as [v|]; cbn; rewrite !markOp_run; cbn;
      (eexists; split; [reflexivity|]); cbn; rewrite ?Z.div_mul by lia;
      repeat split.
Qed.

(** X8.  A checkpoint undo takes back what was written after the save that
    set the checkpoint, and nothing of what that save committed: after
    [save(label)], any statement and [undo()], the tables are those the save
    committed when the storage was dirty, and those of the last commit
    before it when it was not. *)
Theorem checkpoint_undo_discards_later_edits (label : string)
    (mod_ : option Z) (edit : Tables -> Tables) (w : World) :
  label <> "" ->
  exists w',
    (save (Some label) mod_ true ;; db_execute edit ;; undo) w = Ok None w' /\
    live (db (col w')) =
      (if dirty w
       then with_col_row (set_mod (stamp mod_ w)) (live (db (col w)))
       else saved (db (col w))) /\
    saved (db (col w')) = live (db (col w')) /\
    _undo (col w') = None /\
    open_trx (db (col w')) = 1%nat.
Proof.
  intros Hlabel.
  destruct (save_run (Some label) mod_ true w)
    as (w1 & Hsave & Hu & _ & Hclean & Hdirty).
  assert (Hrec : _undo (col w1) = Some (CheckpointUndo label)).
  { rewrite Hu. destruct label; [congruence | reflexivity]. }
  assert (Hsaved : saved (db (col w1)) =
    (if dirty w then with_col_row (set_mod (stamp mod_ w)) (live (db (col w)))
     else saved (db (col w)))).
  { destruct (dirty w).
    - destruct (Hdirty eq_refl) as (Hlive & Hcommitted & _).
      rewrite Hcommitted. exact Hlive.
    - rewrite (Hclean eq_refl eq_refl). reflexivity. }
  unfold mbind at 1, M_bind at 1. rewrite Hsave.
  unfold undo. run. rewrite Hrec. cbn.
  eexists. split; [reflexivity|]. cbn. rewrite Hsaved. repeat split.
Qed.

(** X9.  [autosave] saves exactly when the clock is more than 300 seconds
    past the last save, and then answers [True] and restarts the count from
    the save's own reading of the clock; otherwise it answers [None] and
    only the clock has been read. *)
Theorem autosave_after_five_minutes (w : World) :
  (300000 < clock_ms (ticks w) - _lastSave (col w) ->
   exists w',
     autosave w = Ok (Some true) w' /\
     save None None true (mkWorld (col w) (probe w) (S (ticks w))) = Ok tt w' /\
     _lastSave (col w') =
       clock_ms (if dirty w then S (S (ticks w)) else S (ticks w))) /\
  (clock_ms (ticks w) - _lastSave (col w) <= 300000 ->
   autosave w = Ok None (mkWorld (col w) (probe w) (S (ticks w)))).
Proof.
  unfold autosave. run.
  split.
  - intros Hlate. apply Z.ltb_lt in Hlate. rewrite Hlate.
    set (w0 := mkWorld (col w) (probe w) (S (ticks w))).
    destruct (save_lastSave None None true w0) as (w' & Hsave & Hlast).
    exists w'. rewrite Hsave. split; [reflexivity|]. split; [reflexivity|].
    rewrite Hlast. subst w0. unfold dirty. cbn. destruct (_ || _); reflexivity.
  - intros Hsoon. apply Z.ltb_ge in Hsoon. rewrite Hsoon. reflexivity.
Qed.

(** X10.  [optimize] ends inside one open transaction on a clean storage
    whose live tables are the committed ones: pending changes of a dirty
    storage are committed first, and what an undetected change left in the
    live tables of a clean storage is rolled back. *)
Theorem optimize_reopens_clean (w : World) :
  exists w',
    optimize w = Ok tt w' /\
    probe w' = probe w ++ [if dirty w then EvCommit else EvRollback; EvBegin] /\
    live (db (col w')) =
      (if dirty w
       then with_col_row (set_mod (clock_ms (ticks w))) (live (db (col w)))
       else saved (db (col w))) /\
    saved (db (col w')) = live (db (col w')) /\
    open_trx (db (col w')) = 1%nat /\
    dirty w' = false.
Proof.
  unfold optimize, db_execute_maintenance.
  destruct (save_closing_inv None None w)
    as (w1 & Hsave & Hp & Hlive & Hsaved & Hflag & Htrx).
  unfold mbind at 1, M_bind at 1. rewrite Hsave. run.
  eexists. split; [reflexivity|]. unfold dirty. cbn.
  rewrite Hp, Hflag, Hsaved, Hlive, Htrx, Z.eqb_refl, <- app_assoc.
  unfold stamp. repeat split.
Qed.



(** X13.  [schedVer] answers 1 when no version is persisted and the
    persisted version when it is 1 or 2; any other persisted value makes it
    fail with the configuration error.  It never changes the collection. *)
Theorem schedVer_default_and_bounds (w : World) :
  (persisted_version w = None -> schedVer w = Ok 1 w) /\
  (forall v, persisted_version w = Some v -> v = 1 \/ v = 2 ->
     schedVer w = Ok v w) /\
  (forall v, persisted_version w = Some v -> v <> 1 -> v <> 2 ->
     schedVer w = Raise (Exception "Unsupported scheduler version") w).
Proof.
  split; [|split].
  - intros Hnone. rewrite schedVer_supported; rewrite Hnone; cbn;
      [reflexivity | apply supported_intro; auto].
  - intros v Hv Hin. rewrite schedVer_supported; rewrite Hv; cbn;
      [reflexivity | apply supported_intro; exact Hin].
  - intros v Hv H1 H2. apply schedVer_unsupported. rewrite Hv. cbn.
    intros Hin. apply supported_inv in Hin. tauto.
Qed.

(** X14.  Whenever a version change returns, [schedVer] answers the version
    asked for.  Either that version was in use and nothing was touched, or
    the change went through the schema gate, ran the migration routine of
    that direction once and loaded a new scheduler of the class of that
    version. *)
Theorem changeSchedulerVer_postcondition (ver : Z) (w w' : World) :
  changeSchedulerVer ver w = Ok tt w' ->
  schedVer w' = Ok ver w' /\
  ver ∈ supportedSchedulerVersions /\
  ((schedVer w = Ok ver w /\ w' = w) \/
   (schedVer w <> Ok ver w /\
    sched (col w') = fresh_scheduler ver /\
    probe w' = probe w ++ [EvCommit; EvBegin; migration_event ver])).
Proof.
  unfold changeSchedulerVer. unfold mbind at 1, M_bind at 1.
  destruct (schedVer w) as [cur w0 | e w0] eqn:Hcur; [|discriminate].
  destruct (schedVer_inv cur w w0 Hcur) as (-> & Hin & _).
  destruct (Z.eqb_spec ver cur) as [-> | Hne].
  - intros [= <-]. auto.
  - destruct (bool_decide (ver ∈ supportedSchedulerVersions)) eqn:Hsup;
      cbn [negb]; [|discriminate].
    apply bool_decide_eq_true_1 in Hsup.
    unfold mbind at 1, M_bind at 1.
    destruct (modSchema true w) as [[] w1 | e w1] eqn:Hmod; [|discriminate].
    destruct (modSchema_inv true w w1 Hmod) as (_ & _ & _ & _ & _ & Hp1 & _).
    unfold migration_event, fresh_scheduler.
    unfold _loadScheduler, schedVer at 1.
    destruct (supported_inv ver Hsup) as [-> | ->]; run;
      rewrite lookup_insert_eq; cbn; intros [= <-];
      (split; [unfold schedVer; run; rewrite lookup_insert_eq; reflexivity|]);
      (split; [exact Hsup|]); right; cbn; rewrite Hp1, <- app_assoc;
      (split; [congruence|]); split; reflexivity.
Qed.

(** X15.  A review marked and undone at once hands the card back and leaves
    in the record the cards it held before, but not a checkpoint: the
    checkpoint a save had set is gone for good. *)
Theorem markReview_undo_round_trip (c : Card) (w : World) :
  is_Some (stats_type (card_queue c)) ->
  exists w',
    (markReview c ;; undo) w = Ok (Some (card_id c)) w' /\
    undo_entries (_undo (col w')) = undo_entries (_undo (col w)) /\
    is_checkpoint (_undo (col w')) = false /\
    (is_review (_undo (col w)) = false -> _undo (col w') = None).
Proof.
  intros [ty Hty]. unfold mbind at 1, M_bind at 1. rewrite markReview_run.
  set (w1 := with_col _ w).
  destruct (undo_review_run TR_SCHEDULING_REVIEW (undo_entries (_undo (col w)))
              c (note_is_leech w c) ty w1 eq_refl Hty) as (w' & Hrun & Hrec & _).
  exists w'. split; [exact Hrun|]. rewrite Hrec. unfold record_of.
  destruct (_undo (col w)) as [[nm d wl | nm]|]; cbn;
    try (repeat split; reflexivity).
  destruct d as [|c0 d]; cbn; repeat split; try reflexivity; discriminate.
Qed.

(** [autosave] goes through [_markOp] without a label, if at all. *)
Lemma autosave_keeps_reviews (w : World) :
  is_checkpoint (_undo (col w)) = false ->
  exists r w', autosave w = Ok r w' /\ _undo (col w') = _undo (col w).
Proof.
  intros Hrec. unfold autosave. run.
  destruct (_ <? _).
  - destruct (save_run None None true (mkWorld (col w) (probe w) (S (ticks w))))
      as (w' & Hsave & Hu & _).
    rewrite Hsave. eexists. eexists. split; [reflexivity|].
    rewrite Hu. cbn. rewrite Hrec. reflexivity.
  - eexists. eexists. split; reflexivity.
Qed.

Lemma review_all_autosaving_run (cs : list Card) : forall w,
  exists w',
    review_all_autosaving cs w = Ok tt w' /\
    ((cs = [] /\ _undo (col w') = _undo (col w)) \/
     exists wl, _undo (col w') =
       Some (ReviewUndo TR_SCHEDULING_REVIEW (undo_entries (_undo (col w)) ++ cs) wl)).
Proof.
  induction cs as [|c cs IH]; intros w.
  - exists w. split; [reflexivity|]. left. auto.
  - cbn [review_all_autosaving]. unfold mbind at 1, M_bind at 1.
    rewrite markReview_run. set (w0 := with_col _ w).
    destruct (autosave_keeps_reviews w0 eq_refl) as (r & w1 & Hauto & Hu1).
    unfold mbind at 1, M_bind at 1. rewrite Hauto.
    destruct (IH w1) as (w' & Hrun & Hrec).
    exists w'. split; [exact Hrun|]. right. rewrite Hu1 in Hrec.
    destruct Hrec as [[-> Hsame] | [wl Hwl]].
    + eexists. rewrite Hsame. reflexivity.
    + exists wl. rewrite Hwl. cbn. rewrite <- app_assoc. reflexivity.
Qed.

Lemma undo_times_autosaving_run (nm : string) (wl : bool) (cs : list Card) :
  forall w,
  _undo (col w) = record_of nm wl cs ->
  Forall (fun c => is_Some (stats_type (card_queue c))) cs ->
  exists w',
    undo_times_autosaving (length cs) w =
      Ok (map (fun c => Some (card_id c)) (rev cs)) w' /\
    _undo (col w') = None.
Proof.
  induction cs as [|c d IH] using rev_ind; intros w Hu Hok.
  - exists w. split; [reflexivity | exact Hu].
  - apply Forall_app in Hok as [Hd Hc].
    apply Forall_singleton in Hc as [ty Hty].
    unfold record_of in Hu. rewrite bool_decide_eq_false_2 in Hu
      by (intros Heq; destruct d; discriminate).
    destruct (undo_review_run nm d c wl ty w Hu Hty) as (w1 & Hrun & Hu1 & _).
    destruct (autosave_keeps_reviews w1) as (r & w2 & Hauto & Hu2).
    { rewrite Hu1. unfold record_of. destruct (bool_decide _); reflexivity. }
    destruct (IH w2) as (w' & Hrest & Hnone);
      [rewrite Hu2; exact Hu1 | exact Hd |].
    exists w'. split; [|exact Hnone].
    rewrite length_app, Nat.add_1_r, rev_unit.
    cbn [undo_times_autosaving length map].
    unfold mbind at 1, M_bind at 1. rewrite Hrun.
    unfold mbind at 1, M_bind at 1. rewrite Hauto.
    unfold mbind at 1, M_bind at 1. rewrite Hrest. reflexivity.
Qed.

(** X16.  Calls of [autosave] between the reviews and between the undos,
    whether they save or not, lose no review: the cards still come back
    most recent first and the record ends empty. *)
Theorem review_undo_lifo_autosaving (cs : list Card) (w : World) :
  is_review (_undo (col w)) = false ->
  cs <> [] ->
  Forall (fun c => is_Some (stats_type (card_queue c))) cs ->
  exists w',
    (review_all_autosaving cs ;; undo_times_autosaving (length cs)) w =
      Ok (map (fun c => Some (card_id c)) (rev cs)) w' /\
    _undo (col w') = None.
Proof.
  intros Hfresh Hne Hok.
  destruct (review_all_autosaving_run cs w) as (w1 & Hmark & Hrec).
  destruct Hrec as [[-> _] | [wl Hwl]]; [congruence|].
  assert (Hnil : undo_entries (_undo (col w)) = []).
  { destruct (_undo (col w)) as [[]|]; [discriminate | reflexivity | reflexivity]. }
  rewrite Hnil in Hwl. cbn in Hwl.
  destruct (undo_times_autosaving_run TR_SCHEDULING_REVIEW wl cs w1)
    as (w' & Hundo & Hnone); [|exact Hok|].
  { unfold record_of. rewrite bool_decide_eq_false_2 by exact Hne. exact Hwl. }
  exists w'. split; [|exact Hnone].
  unfold mbind, M_bind. rewrite Hmark. exact Hundo.
Qed.

Lemma modSchema_raise_inv (check : bool) (e : PyExc) (w w1 : World) :
  modSchema check w = Raise e w1 ->
  w1 = w /\ e = AnkiError "abortSchemaMod".
Proof.
  unfold modSchema. unfold mbind at 1, M_bind at 1. unfold schemaChanged. run.
  assert (Hsave : forall w0, save None None true w0 <> Raise e w1).
  { intros w0 Hraise.
    destruct (save_run None None true w0) as (w2 & Hok & _). congruence. }
  destruct (_ <? _); [|destruct (check && _)]; cbn.
  - intros Hraise. destruct (Hsave _ Hraise).
  - intros [= <- <-]. destruct w. auto.
  - intros Hraise. destruct (Hsave _ Hraise).
Qed.


(** X20.  A save without label right after a labelled save leaves nothing
    to undo, whatever the record held before the two: the checkpoint of the
    first save has replaced it and the second save clears the checkpoint. *)
Theorem bare_save_forgets_checkpoint (label : string) (mod_ mod_' : option Z)
    (trx trx' : bool) (w : World) :
  label <> "" ->
  exists w1 w2,
    save (Some label) mod_ trx w = Ok tt w1 /\
    undoName w1 = Ok (Some label) w1 /\
    save None mod_' trx' w1 = Ok tt w2 /\
    undoName w2 = Ok None w2.
Proof.
  intros Hlabel.
  destruct (save_run (Some label) mod_ trx w) as (w1 & Hsave1 & Hu1 & _).
  destruct (save_run None mod_' trx' w1) as (w2 & Hsave2 & Hu2 & _).
  exists w1, w2. rewrite !undoName_run, Hu2, Hu1.
  destruct label as [|a s]; [congruence|]. cbn. auto.
Qed.

End MoreFacts.

(** ** The duplicate search *)

Section FindDupesFacts.
Variable splitFields : string -> list string.
Variable stripHTMLMedia : string -> string.
Variable models_get : Z -> option (list string).
Variable fieldName : string.

#[local] Abbreviation row_value' := (row_value splitFields stripHTMLMedia models_get fieldName).
#[local] Abbreviation nids_of' := (nids_of splitFields stripHTMLMedia models_get fieldName).
#[local] Abbreviation invariant := (dupes_invariant splitFields stripHTMLMedia models_get fieldName).

Lemma nids_of_snoc_same (val : string) (done : list (Z * Z * string))
    (row : Z * Z * string) :
  row_value' row = Some val ->
  nids_of' val (done ++ [row]) = nids_of' val done ++ [row.1.1].
Proof.
  intros Hval. unfold nids_of. rewrite filter_app, map_app.
  rewrite filter_cons_True by exact Hval. reflexivity.
Qed.

Lemma nids_of_snoc_other (val : string) (done : list (Z * Z * string))
    (row : Z * Z * string) :
  row_value' row <> Some val ->
  nids_of' val (done ++ [row]) = nids_of' val done.
Proof.
  intros Hval. unfold nids_of. rewrite filter_app, map_app.
  rewrite filter_cons_False by exact Hval. cbn. apply app_nil_r.
Qed.

Lemma findDupes_row_keeps (done : list (Z * Z * string)) (row : Z * Z * string)
    (st st' : DupeState) :
  invariant done st ->
  findDupes_row splitFields stripHTMLMedia models_get fieldName row st = inr st' ->
  invariant (done ++ [row]) st'.
Proof.
  intros (Hfields & Hvals & Hnodup & Hdupes).
  destruct row as [[nid mid] flds]. unfold findDupes_row.
  (* the position of the field, from the cache or from the model *)
  assert (Hord : forall ord st1,
    ordForMid models_get fieldName mid st = inr (ord, st1) ->
    vals st1 = vals st /\ dupes st1 = dupes st /\
    (forall mid' c, fields st1 !! mid' = Some c ->
       exists fl, models_get mid' = Some fl /\
         first_index (fun name => bool_decide (lower name = lower fieldName))
                     fl 0%nat = Some c) /\
    exists fl, models_get mid = Some fl /\
      first_index (fun name => bool_decide (lower name = lower fieldName))
                  fl 0%nat = Some ord).
  { intros ord st1. unfold ordForMid.
    destruct (fields st !! mid) as [c|] eqn:Hcache.
    - intros [= <- <-]. auto.
    - destruct (models_get mid) as [fl|] eqn:Hmodel; [|discriminate].
      destruct (first_index _ fl 0%nat) as [c|] eqn:Hfirst; [|discriminate].
      intros [= <- <-]. cbn. repeat split; [|eauto].
      intros mid' c'. destruct (decide (mid' = mid)) as [-> | Hne].
      + rewrite lookup_insert_eq. intros [= <-]. eauto.
      + rewrite lookup_insert_ne by congruence. apply Hfields. }
  destruct (ordForMid models_get fieldName mid st) as [e | [ord st1]];
    [discriminate|].
  destruct (Hord ord st1 eq_refl) as (Hv1 & Hd1 & Hf1 & fl & Hmodel & Hfirst).
  clear Hord.
  destruct (splitFields flds !! ord) as [val0|] eqn:Hfld; [|discriminate].
  assert (Hrow : row_value' (nid, mid, flds) = Some (stripHTMLMedia val0)).
  { unfold row_value. rewrite Hmodel. cbn. rewrite Hfirst. cbn.
    rewrite Hfld. reflexivity. }
  set (val := stripHTMLMedia val0) in *.
  destruct (truthy val) eqn:Htruthy; cbn [negb].
  - (* a value: the note is filed under it *)
    intros [= <-]. unfold dupes_invariant. cbn [vals dupes fields].
    rewrite Hv1, Hd1.
    assert (Hold : default [] (vals st !! val) = nids_of' val done).
    { rewrite Hvals, Htruthy. cbn.
      destruct (bool_decide _) eqn:Hnil; cbn; [|reflexivity].
      apply bool_decide_eq_true_1 in Hnil. rewrite Hnil. reflexivity. }
    rewrite Hold.
    assert (Hnew : nids_of' val (done ++ [(nid, mid, flds)])
                   = nids_of' val done ++ [nid]).
    { apply (nids_of_snoc_same val done (nid, mid, flds) Hrow). }
    split; [exact Hf1|]. split; [|split].
    + intros v. destruct (decide (v = val)) as [-> | Hne].
      * rewrite lookup_insert_eq, Htruthy, Hnew. cbn.
        rewrite bool_decide_eq_false_2; [reflexivity|].
        intros Hnil. apply app_eq_nil in Hnil as [_ [=]].
      * rewrite lookup_insert_ne by congruence.
        rewrite nids_of_snoc_other by (rewrite Hrow; congruence).
        apply Hvals.
    + destruct (Nat.eqb_spec (length (nids_of' val done ++ [nid])) 2) as [Hlen | Hlen];
        [|exact Hnodup].
      apply NoDup_app. split; [exact Hnodup|]. split; [|apply NoDup_singleton].
      intros v Hv Hv'. apply list_elem_of_singleton in Hv'. subst v.
      apply Hdupes in Hv as [_ Htwo].
      rewrite length_app in Hlen. cbn in Hlen. lia.
    + intros v. destruct (decide (v = val)) as [-> | Hne].
      * rewrite Hnew.
        destruct (Nat.eqb_spec (length (nids_of' val done ++ [nid])) 2) as [Hlen | Hlen].
        -- rewrite elem_of_app, list_elem_of_singleton. rewrite Hlen.
           split; [auto | intros _; auto].
        -- rewrite Hdupes. rewrite length_app in *. cbn in *.
           split; intros [Ht Hl]; (split; [exact Ht | lia]).
      * rewrite nids_of_snoc_other by (rewrite Hrow; congruence).
        destruct (Nat.eqb_spec (length (nids_of' val done ++ [nid])) 2) as [Hlen | Hlen].
        -- rewrite elem_of_app, list_elem_of_singleton, Hdupes.
           split; [intros [H | H]; [exact H | contradiction] | auto].
        -- apply Hdupes.
  - (* empty does not count as duplicate *)
    intros [= <-]. unfold dupes_invariant. rewrite Hv1, Hd1.
    assert (Hother : forall v, truthy v = true ->
      nids_of' v (done ++ [(nid, mid, flds)]) = nids_of' v done).
    { intros v Hv. apply nids_of_snoc_other. rewrite Hrow.
      intros [= Heq]. rewrite Heq in Htruthy. congruence. }
    split; [exact Hf1|]. split; [|split].
    + intros v. rewrite Hvals. destruct (truthy v) eqn:Hv; [|reflexivity].
      rewrite (Hother v Hv). reflexivity.
    + exact Hnodup.
    + intros v. rewrite Hdupes. split; intros [Hv Hl]; (split; [exact Hv|]).
      * rewrite (Hother v Hv). exact Hl.
      * rewrite (Hother v Hv) in Hl. exact Hl.
Qed.

Lemma findDupes_loop_keeps (rows : list (Z * Z * string)) :
  forall done st st',
    invariant done st ->
    findDupes_loop splitFields stripHTMLMedia models_get fieldName rows st = inr st' ->
    invariant (done ++ rows) st'.
Proof.
  induction rows as [|row rows IH]; intros done st st' Hinv; cbn.
  - intros [= <-]. rewrite app_nil_r. exact Hinv.
  - destruct (findDupes_row _ _ _ _ row st) as [e | st1] eqn:Hrow; [discriminate|].
    intros Hrest.
    replace (done ++ row :: rows) with ((done ++ [row]) ++ rows)
      by (rewrite <- app_assoc; reflexivity).
    apply (IH _ st1 st'); [|exact Hrest].
    apply (findDupes_row_keeps done row st st1 Hinv Hrow).
Qed.


Lemma findDupes_row_returns (done : list (Z * Z * string))
    (row : Z * Z * string) (st : DupeState) :
  invariant done st ->
  (exists st',
     findDupes_row splitFields stripHTMLMedia models_get fieldName row st = inr st')
  <-> is_Some (row_value' row).
Proof.
  intros (Hfields & _). destruct row as [[nid mid] flds].
  unfold findDupes_row, row_value, ordForMid.
  destruct (fields st !! mid) as [c|] eqn:Hcache.
  - destruct (Hfields mid c Hcache) as (fl & Hm & Hf). rewrite Hm. cbn.
    rewrite Hf. cbn.
    destruct (splitFields flds !! c) as [val0|]; cbn.
    + split; [eauto|]. intros _. destruct (truthy _); cbn; eauto.
    + split; [intros [st' [=]] | intros [v [=]]].
  - destruct (models_get mid) as [fl|]; cbn;
      [|split; [intros [st' [=]] | intros [v [=]]]].
    destruct (first_index _ fl 0%nat) as [c|]; cbn;
      [|split; [intros [st' [=]] | intros [v [=]]]].
    destruct (splitFields flds !! c) as [val0|]; cbn.
    + split; [eauto|]. intros _. destruct (truthy _); cbn; eauto.
    + split; [intros [st' [=]] | intros [v [=]]].
Qed.

Lemma findDupes_loop_returns (rows : list (Z * Z * string)) :
  forall done st,
    invariant done st ->
    (exists st',
       findDupes_loop splitFields stripHTMLMedia models_get fieldName rows st = inr st')
    <-> Forall (fun row => is_Some (row_value' row)) rows.
Proof.
  induction rows as [|row rows IH]; intros done st Hinv; cbn.
  - split; [intros _; constructor | eauto].
  - rewrite Forall_cons. rewrite <- (findDupes_row_returns done row st Hinv).
    destruct (findDupes_row _ _ _ _ row st) as [e | st1] eqn:Hrow.
    + split; [intros [st' [=]] | intros [[st' [=]] _]].
    + rewrite (IH (done ++ [row]) st1)
        by (apply (findDupes_row_keeps done row st st1 Hinv Hrow)).
      split; [intros H; split; [eauto | exact H] | tauto].
Qed.


End FindDupesFacts.

(** ** The further properties on the test doubles *)

Section MoreExamples.
Import Double Samples.
#[local] Existing Instance granting.

Lemma modSchema_stamps_and_commits_witness :
  exists w',
    modSchema true world0 = Ok tt w' /\
    col_scm (col_row (live (db (col w')))) = 1600000000000 /\
    saved (db (col w')) = live (db (col w')) /\
    probe w' = [EvCommit; EvBegin] /\
    open_trx (db (col w')) = 1%nat /\
    dirty w' = false.
Proof.
  exact (modSchema_stamps_and_commits true world0 (or_intror (or_intror eq_refl))).
Defined.


Lemma undo_review_is_no_rollback_witness :
  exists w',
    undo world_review = Ok (Some 101) w' /\
    probe w' = [] /\
    saved (db (col w')) = tables0 /\
    open_trx (db (col w')) = 1%nat /\
    dirty w' = true /\
    reps (sched (col w')) = -1 /\
    sched_class (sched (col w')) = V1Scheduler.
Proof.
  apply (undo_review_is_no_rollback "Review" [] card1 false "rev" world_review);
    reflexivity.
Defined.




Lemma checkpoint_undo_discards_later_edits_witness :
  exists w',
    (save (Some "Add") (Some 42) true ;;
     db_execute (with_revlog (fun _ => [])) ;; undo) world_dirty = Ok None w' /\
    live (db (col w')) = with_col_row (set_mod 42) tables0 /\
    saved (db (col w')) = live (db (col w')) /\
    _undo (col w') = None /\
    open_trx (db (col w')) = 1%nat.
Proof.
  apply (checkpoint_undo_discards_later_edits "Add" (Some 42)
           (with_revlog (fun _ => [])) world_dirty).
  discriminate.
Defined.

Lemma autosave_after_five_minutes_witness :
  (exists w',
     autosave world0 = Ok (Some true) w' /\
     _lastSave (col w') = 1600000001000) /\
  autosave world_just_saved =
    Ok None (mkWorld (col world_just_saved) [] 1).
Proof.
  split.
  - destruct (proj1 (autosave_after_five_minutes world0)) as (w' & Hrun & _ & Hlast).
    + vm_compute. reflexivity.
    + exists w'. split; [exact Hrun | exact Hlast].
  - apply (proj2 (autosave_after_five_minutes world_just_saved)).
    vm_compute. discriminate.
Defined.


Lemma schedVer_default_and_bounds_witness :
  schedVer world0 = Ok 1 world0 /\
  schedVer world_v3 = Raise (Exception "Unsupported scheduler version") world_v3.
Proof.
  split.
  - apply (proj1 (schedVer_default_and_bounds world0)). reflexivity.
  - apply (proj2 (proj2 (schedVer_default_and_bounds world_v3)) 3);
      [reflexivity | discriminate | discriminate].
Defined.

Lemma changeSchedulerVer_postcondition_witness :
  let w' := final (changeSchedulerVer 2 world0) in
  schedVer w' = Ok 2 w' /\
  sched (col w') = mkSched V2Scheduler 0 /\
  probe w' = [EvCommit; EvBegin; EvMoveToV2].
Proof.
  destruct (changeSchedulerVer_postcondition 2 world0
              (final (changeSchedulerVer 2 world0)))
    as (Hver & _ & [[Hsame _] | (_ & Hsched & Hp)]).
  - vm_compute. reflexivity.
  - discriminate Hsame.
  - split; [exact Hver|]. split; [exact Hsched | exact Hp].
Defined.

Lemma markReview_undo_round_trip_witness :
  exists w',
    (markReview card1 ;; undo) world_checkpoint = Ok (Some 101) w' /\
    _undo (col w') = None.
Proof.
  destruct (markReview_undo_round_trip card1 world_checkpoint)
    as (w' & Hrun & _ & _ & Hnone).
  - eexists. reflexivity.
  - exists w'. split; [exact Hrun | apply Hnone; reflexivity].
Defined.

Lemma review_undo_lifo_autosaving_witness :
  exists w',
    (review_all_autosaving [card1; card2; card3] ;;
     undo_times_autosaving 3) world0 =
      Ok [Some 103; Some 102; Some 101] w' /\
    _undo (col w') = None.
Proof.
  apply (review_undo_lifo_autosaving [card1; card2; card3] world0).
  - reflexivity.
  - discriminate.
  - repeat constructor; eexists; reflexivity.
Defined.




Lemma bare_save_forgets_checkpoint_witness :
  exists w1 w2,
    save (Some "Add") None true world_review = Ok tt w1 /\
    undoName w1 = Ok (Some "Add") w1 /\
    save None None true w1 = Ok tt w2 /\
    undoName w2 = Ok None w2.
Proof.
  apply (bare_save_forgets_checkpoint "Add" None None true true world_review).
  discriminate.
Defined.

End MoreExamples.
